(** * makedist.py: the release-packaging script, embedded and verified

    The script stages the application files into [tempapp], asks the
    bundler for one application directory per platform, and archives each
    directory as a zip file or a disk image.

    The embedding follows [src/makedist.py] function by function.  The
    script is stateful (it reads and writes the file system, prints, and
    spawns shell commands) and fallible (Python exceptions), so it runs in
    a state-and-exception monad over a [world]: a file system plus the
    ordered log of what was printed and which commands were spawned.

    What the script only borrows is modelled at its interface:
    - Python's [str] operations ([in], [startswith], [replace], slicing),
      [os.path.split] and [os.path.join] (POSIX flavour) are written out;
    - the file system is a finite map from absolute paths (lists of
      components) to nodes; paths are resolved lexically against a fixed
      working directory; there are no symbolic links, permissions or
      special files;
    - [subprocess.call] is an oracle [shell] that may rewrite the file
      system; its exit status is ignored, as in the script;
    - [json.load] is an oracle [json_loads]. *)

From stdpp Require Import gmap strings list fin_maps.
From Stdlib Require Import Ascii.

(** ** Python strings *)

Module Str.

(** [s.startswith(p)] *)
Definition startswith (s p : string) : bool := String.prefix p s.

(** [sub in s] for two strings: [sub] occurs somewhere in [s]. *)
Fixpoint contains (sub s : string) : bool :=
  String.prefix sub s ||
  match s with
  | EmptyString => false
  | String _ s' => contains sub s'
  end.

(** [s[n:]] *)
Fixpoint drop (n : nat) (s : string) : string :=
  match n, s with
  | O, _ => s
  | S _, EmptyString => EmptyString
  | S n', String _ s' => drop n' s'
  end.

(** [s[:n]] *)
Fixpoint take (n : nat) (s : string) : string :=
  match n, s with
  | O, _ => EmptyString
  | S _, EmptyString => EmptyString
  | S n', String c s' => String c (take n' s')
  end.

(** The scan of [s.replace(old, new)] for a non-empty [old]: left to
    right, non-overlapping; [skip] counts the characters of a match that
    are still to be passed over. *)
Fixpoint replace_scan (old new : string) (skip : nat) (s : string) : string :=
  match s with
  | EmptyString => EmptyString
  | String c s' =>
      match skip with
      | S k => replace_scan old new k s'
      | O =>
          if String.prefix old s
          then new +:+ replace_scan old new (String.length old - 1) s'
          else String c (replace_scan old new 0 s')
      end
  end.

(** With an empty [old], Python puts [new] before every character and at
    the end. *)
Fixpoint intersperse (new s : string) : string :=
  match s with
  | EmptyString => new
  | String c s' => new +:+ String c (intersperse new s')
  end.

(** [s.replace(old, new)] *)
Definition replace (old new s : string) : string :=
  match old with
  | EmptyString => intersperse new s
  | String _ _ => replace_scan old new 0 s
  end.

(** [s.rfind("/") + 1]: the length of the part of [s] up to and
    including its last slash, 0 when there is none. *)
Fixpoint after_last_slash (s : string) : nat :=
  match s with
  | EmptyString => 0
  | String c s' =>
      if contains "/" s then S (after_last_slash s') else 0
  end.

(** [s.rstrip("/")] *)
Fixpoint rstrip_slash (s : string) : string :=
  match s with
  | EmptyString => EmptyString
  | String c s' =>
      match rstrip_slash s' with
      | EmptyString => if Ascii.eqb c "/"%char then EmptyString else String c EmptyString
      | r => String c r
      end
  end.

(** [s.split("/")] *)
Fixpoint split_slash (s : string) : list string :=
  match s with
  | EmptyString => [EmptyString]
  | String c s' =>
      if Ascii.eqb c "/"%char then EmptyString :: split_slash s'
      else match split_slash s' with
           | [] => [String c EmptyString]
           | w :: ws => String c w :: ws
           end
  end.

End Str.

(** ** [os.path], POSIX flavour *)

Module OsPath.

(** [os.path.split(p)]: the pair (head, tail), where tail is what follows
    the last slash; trailing slashes are stripped from head unless head
    consists of slashes only. *)
Definition split (p : string) : string * string :=
  let i := Str.after_last_slash p in
  let head := Str.take i p in
  let tail := Str.drop i p in
  let head' :=
    match Str.rstrip_slash head with
    | EmptyString => head
    | stripped => stripped
    end in
  (head', tail).

(** [os.path.join(a, b)] *)
Definition join (a b : string) : string :=
  if Str.startswith b "/" then b
  else match a with
       | EmptyString => b
       | _ => if Str.startswith (Str.drop (String.length a - 1) a) "/"
              then a +:+ b
              else a +:+ "/" +:+ b
       end.

End OsPath.

Example split_dist : OsPath.split "dist/Foo-darwin-x64" = ("dist", "Foo-darwin-x64").
Proof. reflexivity. Qed.

Example split_root : OsPath.split "//x" = ("//", "x").
Proof. reflexivity. Qed.

Example split_plain : OsPath.split "x" = ("", "x").
Proof. reflexivity. Qed.

Example split_trailing : OsPath.split "a/b//" = ("a/b", "").
Proof. reflexivity. Qed.

Example join_dot : OsPath.join "tempapp" "./font" = "tempapp/./font".
Proof. reflexivity. Qed.

Example replace_all : Str.replace "darwin" "macos" "darwin-darwinx" = "macos-macosx".
Proof. reflexivity. Qed.

Example replace_empty : Str.replace "" "-" "ab" = "-a-b-".
Proof. reflexivity. Qed.

(** ** The file system *)

Definition path := list string.

Inductive node : Type :=
| File (data : string)
| Dir.

#[global] Instance node_eq_dec : EqDecision node.
Proof. solve_decision. Defined.

Abbreviation fsmap := (gmap path node).

(** Python's exceptions, as far as the script can meet them. *)
Inductive exn : Type :=
| Exception (msg : string)
| FileNotFoundError (filename : string)
| IsADirectoryError (filename : string)
| NotADirectoryError (filename : string)
| FileExistsError (filename : string)
| SameFileError (src dst : string)
| JSONDecodeError
| KeyError (key : string)
| TypeError.

Abbreviation result A := (exn + A)%type.

Module Fs.

(** One step of lexical path resolution. *)
Definition step (acc : path) (c : string) : path :=
  if bool_decide (c = "" ∨ c = ".") then acc
  else if bool_decide (c = "..") then removelast acc
  else acc ++ [c].

Definition walk (start : path) (comps : list string) : path :=
  foldl step start comps.

(** The node a string names, relative to [cwd]; the empty string names
    nothing (ENOENT). *)
Definition resolve (cwd : path) (s : string) : option path :=
  match s with
  | EmptyString => None
  | _ => Some (walk (if Str.startswith s "/" then [] else cwd) (Str.split_slash s))
  end.

(** The root directory always exists. *)
Definition get (m : fsmap) (p : path) : option node :=
  match p with
  | [] => Some Dir
  | _ => m !! p
  end.

Definition parent (p : path) : path := removelast p.

(** Why nothing is found at [p]: a plain file in the way, or no entry. *)
Definition missing (m : fsmap) (s : string) (p : path) : exn :=
  match get m (parent p) with
  | Some (File _) => NotADirectoryError s
  | _ => FileNotFoundError s
  end.

Definition isdir (cwd : path) (m : fsmap) (s : string) : bool :=
  match resolve cwd s with
  | Some p => bool_decide (get m p = Some Dir)
  | None => false
  end.

(** [open(s).read()] *)
Definition read (cwd : path) (m : fsmap) (s : string) : result string :=
  match resolve cwd s with
  | None => inl (FileNotFoundError s)
  | Some p =>
      match get m p with
      | Some (File data) => inr data
      | Some Dir => inl (IsADirectoryError s)
      | None => inl (missing m s p)
      end
  end.

(** [open(s, 'wb').write(data)] *)
Definition write (cwd : path) (m : fsmap) (s data : string) : result fsmap :=
  match resolve cwd s with
  | None => inl (FileNotFoundError s)
  | Some p =>
      match get m p with
      | Some Dir => inl (IsADirectoryError s)
      | Some (File _) => inr (<[p := File data]> m)
      | None =>
          match get m (parent p) with
          | Some Dir => inr (<[p := File data]> m)
          | Some (File _) => inl (NotADirectoryError s)
          | None => inl (FileNotFoundError s)
          end
      end
  end.

(** [os.path.samefile], false when either side cannot be stat'ed. *)
Definition samefile (cwd : path) (m : fsmap) (a b : string) : bool :=
  match resolve cwd a, resolve cwd b with
  | Some pa, Some pb => bool_decide (pa = pb) && bool_decide (is_Some (get m pa))
  | _, _ => false
  end.

(** [shutil.copyfile(src, dst)]: refuse the same file, open the source,
    then create or truncate the destination and copy the bytes. *)
Definition copyfile (cwd : path) (m : fsmap) (src dst : string) : result fsmap :=
  if samefile cwd m src dst then inl (SameFileError src dst)
  else match read cwd m src with
       | inl e => inl e
       | inr data => write cwd m dst data
       end.

(** [os.makedirs(s, exist_ok=True)] below [pre], one component at a time:
    a directory on the way is passed, a missing one is made, a plain file
    stops the walk. *)
Fixpoint mkdirs (s : string) (m : fsmap) (pre : path) (rest : list string) : result fsmap :=
  match rest with
  | [] => inr m
  | c :: rest' =>
      let q := pre ++ [c] in
      match get m q with
      | Some Dir => mkdirs s m q rest'
      | Some (File _) =>
          inl (match rest' with [] => FileExistsError s | _ => NotADirectoryError s end)
      | None => mkdirs s (<[q := Dir]> m) q rest'
      end
  end.

Definition makedirs (cwd : path) (m : fsmap) (s : string) : result fsmap :=
  match resolve cwd s with
  | None => inl (FileNotFoundError s)
  | Some p => mkdirs s m [] p
  end.

(** [os.unlink(s)]: only a plain file can be unlinked (on a directory
    Linux answers EISDIR). *)
Definition unlink (cwd : path) (m : fsmap) (s : string) : result fsmap :=
  match resolve cwd s with
  | None => inl (FileNotFoundError s)
  | Some p =>
      match get m p with
      | Some (File _) => inr (delete p m)
      | Some Dir => inl (IsADirectoryError s)
      | None => inl (missing m s p)
      end
  end.

Definition is_child (d : path) (kv : path * node) : Prop :=
  kv.1 ≠ [] ∧ parent kv.1 = d.

#[global] Instance is_child_dec d kv : Decision (is_child d kv).
Proof. unfold is_child. apply _. Defined.

(** A component name a directory can hold. *)
Definition valid_name (n : string) : Prop :=
  n ≠ "" ∧ n ≠ "." ∧ n ≠ ".." ∧ Str.contains "/" n = false.

(** Well-formed trees: every entry sits in a directory and has a proper
    name. *)
Definition wf_entry (m : fsmap) (k : path) : Prop :=
  get m (parent k) = Some Dir ∧
  match last k with
  | Some n => valid_name n
  | None => True
  end.

#[global] Instance wf_entry_dec m k : Decision (wf_entry m k).
Proof. unfold wf_entry, valid_name. destruct (last k); apply _. Defined.

Definition wf (m : fsmap) : Prop := map_Forall (λ k _, wf_entry m k) m.

(** The names directly below [d], in the order of the map's keys (Python
    leaves the order of a listing open). *)
Definition children (m : fsmap) (d : path) : list string :=
  (λ kv : path * node, default "" (last kv.1)) <$> map_to_list (filter (is_child d) m).

(** [os.listdir(s)] *)
Definition listdir (cwd : path) (m : fsmap) (s : string) : result (list string) :=
  match resolve cwd s with
  | None => inl (FileNotFoundError s)
  | Some p =>
      match get m p with
      | Some Dir => inr (children m p)
      | Some (File _) => inl (NotADirectoryError s)
      | None => inl (missing m s p)
      end
  end.

End Fs.

(** ** The world and the monad of the script *)

(** What an observer of a run sees, in order. *)
Inductive event : Type :=
| Print (line : string)
| Call (cmd : string).

#[global] Instance event_eq_dec : EqDecision event.
Proof. solve_decision. Defined.

Record world : Type := World { fs : fsmap; out : list event }.

(** A computation runs on a world and either raises or returns; the world
    it leaves behind is kept in both cases, as after a Python exception. *)
Definition M (A : Type) : Type := world → result A * world.

#[global] Instance M_ret : MRet M := λ A x w, (inr x, w).

#[global] Instance M_bind : MBind M := λ A B k m w,
  match m w with
  | (inl e, w') => (inl e, w')
  | (inr x, w') => k x w'
  end.

Definition raise {A : Type} (e : exn) : M A := λ w, (inl e, w).

(** Run a file-system operation; a failing one leaves the world as it was. *)
Definition on_fs (op : fsmap → result fsmap) : M unit := λ w,
  match op (fs w) with
  | inl e => (inl e, w)
  | inr m => (inr (), World m (out w))
  end.

Definition print (line : string) : M unit := λ w,
  (inr (), World (fs w) (out w ++ [Print line])).

(** [for x in l: body(x)] *)
Fixpoint for_ {A : Type} (l : list A) (body : A → M unit) : M unit :=
  match l with
  | [] => mret ()
  | x :: l' => body x;; for_ l' body
  end.

(** ** Values decoded from the metadata file *)

(** A decoded JSON value is a [str] or something else; of the latter the
    script only ever takes [str()], which is kept here. *)
Inductive pyval : Type :=
| PStr (s : string)
| PNonStr (text : string).

(** What [json.load] returns: a [dict], or something that is not one. *)
Inductive pydoc : Type :=
| PDict (items : gmap string pyval)
| PNotDict.

(** ['%s' % v] *)
Definition str_of (v : pyval) : string :=
  match v with
  | PStr s => s
  | PNonStr text => text
  end.

(** [v + s] for a [str] [s]: concatenation, or [TypeError]. *)
Definition add_str (v : pyval) (s : string) : M string :=
  match v with
  | PStr a => mret (a +:+ s)
  | PNonStr _ => raise TypeError
  end.

(** [a + v] for a [str] [a]. *)
Definition str_add (a : string) (v : pyval) : M string :=
  match v with
  | PStr s => mret (a +:+ s)
  | PNonStr _ => raise TypeError
  end.

(** [pkg[key]] *)
Definition getitem (pkg : pydoc) (key : string) : M pyval :=
  match pkg with
  | PDict items =>
      match items !! key with
      | Some v => mret v
      | None => raise (KeyError key)
      end
  | PNotDict => raise TypeError
  end.

(** ** The script *)

Module Opts.
(** [opts]: the three [store_true] flags. *)
Record t : Type := Make { makedist : bool; makezip : bool; makenothing : bool }.
End Opts.

Definition all_packages : list string :=
  [ "darwin-x64"; "linux-ia32"; "linux-x64"; "win32-ia32"; "win32-x64" ].

Definition files : list string :=
  [ "./package.json"; "./main.js"; "./apphooks.js"; "./play.html";
    "./prefs.html"; "./prefs.js"; "./about.html"; "./if-card.html";
    "./fonts.css"; "./el-glkote.css"; "./icon-128.png"; "./docicon.ico";
    "./quixe/lib/elkote.min.js"; "./quixe/lib/jquery-1.11.2.min.js";
    "./quixe/lib/quixe.min.js"; "./quixe/media/waiting.gif";
    "./font" ].

Definition rootfiles : list string :=
  [ "./LICENSE"; "./LICENSES-FONTS.txt" ].

(** Two places neither of which lies at or below the other. *)
Definition apart (p q : path) : Prop := ¬ p `prefix_of` q ∧ ¬ q `prefix_of` p.

(** The destination root of staging and the entries of the manifest keep
    apart: the root is not inside a manifest entry, and no manifest entry
    is inside the root. *)
Definition staging_apart (cwd : path) (resourcedir : string) : Prop :=
  match Fs.resolve cwd resourcedir with
  | Some R =>
      Forall (λ f, match Fs.resolve cwd f with
                   | Some pf => apart R pf
                   | None => True
                   end) files
  | None => True
  end.

#[global] Instance staging_apart_dec cwd resourcedir : Decision (staging_apart cwd resourcedir).
Proof.
  unfold staging_apart. destruct (Fs.resolve cwd resourcedir); [|apply _].
  apply Forall_dec. intros f. unfold apart. destruct (Fs.resolve cwd f); apply _.
Defined.

Section Script.

(** The working directory of the process; the script never changes it. *)
Context (cwd : path).
(** What a shell command does to the file system. *)
Context (shell : string → fsmap → fsmap).
(** The JSON decoder; [None] for text that is not JSON. *)
Context (json_loads : string → option pydoc).

Definition isdir (s : string) : M bool := λ w, (inr (Fs.isdir cwd (fs w) s), w).

Definition makedirs (s : string) : M unit := on_fs (λ m, Fs.makedirs cwd m s).

Definition copyfile (src dst : string) : M unit := on_fs (λ m, Fs.copyfile cwd m src dst).

Definition unlink (s : string) : M unit := on_fs (λ m, Fs.unlink cwd m s).

Definition listdir (s : string) : M (list string) := λ w,
  match Fs.listdir cwd (fs w) s with
  | inl e => (inl e, w)
  | inr names => (inr names, w)
  end.

(** [fl = open(s); ...; fl.close()], reading the whole text. *)
Definition open_read (s : string) : M string := λ w,
  match Fs.read cwd (fs w) s with
  | inl e => (inl e, w)
  | inr data => (inr data, w)
  end.

(** [subprocess.call(cmd, shell=True)]; the exit status is dropped. *)
Definition subprocess_call (cmd : string) : M unit := λ w,
  (inr (), World (shell cmd (fs w)) (out w ++ [Call cmd])).

Definition json_load (text : string) : M pydoc :=
  match json_loads text with
  | Some doc => mret doc
  | None => raise JSONDecodeError
  end.

Definition install (resourcedir : string) : M unit :=
  ok ← isdir resourcedir;
  if negb ok then raise (Exception ("path does not exist: " +:+ resourcedir))
  else
    let appdir := resourcedir in
    print ("Installing to: " +:+ appdir);;
    makedirs appdir;;
    let qdir := OsPath.join appdir "quixe" in
    makedirs qdir;;
    makedirs (OsPath.join qdir "lib");;
    makedirs (OsPath.join qdir "media");;
    for_ files (λ filename,
      d ← isdir filename;
      if negb d then copyfile filename (OsPath.join appdir filename)
      else
        let subdirname := OsPath.join appdir filename in
        makedirs subdirname;;
        subfiles ← listdir filename;
        for_ subfiles (λ subfile,
          copyfile (OsPath.join filename subfile) (OsPath.join subdirname subfile))).

Definition builddir (dir pack : string) : M unit :=
  let cmd := "npm run package-" +:+ pack in
  subprocess_call cmd;;
  for_ rootfiles (λ filename, copyfile filename (OsPath.join dir filename));;
  unlink (OsPath.join dir "version").

Definition makezip (product_name product_version : pyval)
    (dir : string) (unwrapped : bool) : M unit :=
  prefix ← add_str product_name "-";
  let val := (OsPath.split dir).2 in
  if negb (Str.startswith val prefix) then raise (Exception "path does not have the prefix")
  else
    zipfile ← str_add prefix product_version;
    let zipfile := zipfile +:+ "-" +:+ Str.drop (String.length prefix) val in
    let zipargs := "-q" in
    if Str.contains "darwin" zipfile then
      let zipfile := Str.replace "darwin" "macos" zipfile in
      print ("AppDMGing up: " +:+ dir +:+ " to " +:+ zipfile);;
      subprocess_call ("rm -f dist/" +:+ zipfile +:+
                       ".dmg; node_modules/.bin/appdmg resources/pack-dmg-spec.json dist/" +:+
                       zipfile +:+ ".dmg")
    else
      print ("Zipping up: " +:+ dir +:+ " to " +:+ zipfile +:+
             " (" +:+ (if unwrapped then "unwrapped" else "wrapped") +:+ ")");;
      if unwrapped then
        subprocess_call ("cd " +:+ dir +:+ "; rm -f ../" +:+ zipfile +:+ ".zip; zip " +:+
                         zipargs +:+ " -r ../" +:+ zipfile +:+ ".zip *")
      else
        let dirls := OsPath.split dir in
        let subdir := dirls.2 in
        let topdir := dirls.1 in
        subprocess_call ("cd " +:+ topdir +:+ "; rm -f " +:+ zipfile +:+ ".zip; zip " +:+
                         zipargs +:+ " -r " +:+ zipfile +:+ ".zip " +:+ subdir).

(** The [packages] list of the module body. *)
Definition select_packages (args : list string) : list string :=
  match args with
  | [] => all_packages
  | _ =>
      foldl (λ packages pack,
               if existsb (λ arg, Str.contains arg pack) args
               then packages ++ [pack] else packages)
            [] all_packages
  end.

(** ['dist/%s-%s' % (product_name, pack)] *)
Definition dest (product_name : pyval) (pack : string) : string :=
  "dist/" +:+ str_of product_name +:+ "-" +:+ pack.

(** Lines 121 to 126: the version and the product name out of
    [package.json]. *)
Definition read_manifest : M (pyval * pyval) :=
  text ← open_read "package.json";
  pkg ← json_load text;
  product_version ← getitem pkg "version";
  product_name ← getitem pkg "productName";
  mret (product_version, product_name).

(** Lines 153 to 155: the bundling loop. *)
Definition build_all (product_name : pyval) (packages : list string) : M unit :=
  for_ packages (λ pack, builddir (dest product_name pack) pack).

(** Lines 158 to 160: the archiving loop. *)
Definition archive_all (product_name product_version : pyval)
    (packages : list string) : M unit :=
  for_ packages (λ pack,
    makezip product_name product_version (dest product_name pack)
            (Str.contains "win32" pack)).

(** Lines 132 to 160: selection, staging and the two phases. *)
Definition run_packages (opts : Opts.t) (args : list string)
    (product_name product_version : pyval) : M unit :=
  let packages := select_packages args in
  match packages with
  | [] => raise (Exception "no packages selected")
  | _ =>
      makedirs "tempapp";;
      install "tempapp";;
      makedirs "dist";;
      let doall := negb (Opts.makedist opts || Opts.makezip opts || Opts.makenothing opts) in
      (if doall || Opts.makedist opts
       then build_all product_name packages
       else mret ());;
      (if doall || Opts.makezip opts
       then archive_all product_name product_version packages
       else mret ())
  end.

(** The module body, for parsed options and positional arguments. *)
Definition main (opts : Opts.t) (args : list string) : M unit :=
  '(product_version, product_name) ← read_manifest;
  print (str_of product_name +:+ " version: " +:+ str_of product_version);;
  run_packages opts args product_name product_version.

End Script.

(** ** A sample working tree

    A project directory with every file of the manifest, two fonts, the
    two root files and a [package.json]; a bundler that writes the
    application directory and its [version] marker; a decoder that knows
    the sample metadata texts. *)

Module Sample.

Definition cwd : path := ["work"].

Definition tree : fsmap :=
  list_to_map
    ([ (cwd, Dir);
       (cwd ++ ["package.json"], File "app-1.0");
       (cwd ++ ["quixe"], Dir);
       (cwd ++ ["quixe"; "lib"], Dir);
       (cwd ++ ["quixe"; "media"], Dir);
       (cwd ++ ["font"], Dir);
       (cwd ++ ["font"; "regular.ttf"], File "glyphs");
       (cwd ++ ["font"; "bold.ttf"], File "bold glyphs") ] ++
     ((λ f, (Fs.walk cwd (Str.split_slash f), File ("text of " +:+ f)))
        <$> (tail (take 16 files) ++ rootfiles))).

(** [npm run package-<pack>] leaves [dist/App-<pack>] with a [version]
    file in it; every other command leaves the tree alone. *)
Definition bundler (cmd : string) (m : fsmap) : fsmap :=
  if Str.startswith cmd "npm run package-" then
    let d := cwd ++ ["dist"; "App-" +:+ Str.drop 16 cmd] in
    <[ d ++ ["version"] := File "marker" ]> (<[ d := Dir ]> (<[ cwd ++ ["dist"] := Dir ]> m))
  else m.

(** A bundler that makes the application directory and leaves no
    [version] file in it. *)
Definition bundler_without_marker (cmd : string) (m : fsmap) : fsmap :=
  if Str.startswith cmd "npm run package-" then
    let d := cwd ++ ["dist"; "App-" +:+ Str.drop 16 cmd] in
    <[ d := Dir ]> (<[ cwd ++ ["dist"] := Dir ]> m)
  else m.

Definition decoder (text : string) : option pydoc :=
  if bool_decide (text = "app-1.0") then
    Some (PDict (<["version" := PStr "1.0"]> (<["productName" := PStr "App"]> ∅)))
  else if bool_decide (text = "blank") then
    Some (PDict (<["version" := PStr ""]> (<["productName" := PStr ""]> ∅)))
  else None.

Definition start : world := World tree [].

(** The same tree with the staging directory in place. *)
Definition ready : world := World (<[ cwd ++ ["tempapp"] := Dir ]> tree) [].

(** The same tree with metadata whose two values are empty strings. *)
Definition blank : world := World (<[ cwd ++ ["package.json"] := File "blank" ]> tree) [].

End Sample.

(** * Platform selection *)

(** [pack] contains at least one of the filter strings. *)
Definition matched (args : list string) (pack : string) : Prop :=
  existsb (λ arg, Str.contains arg pack) args = true.

#[global] Instance matched_dec args pack : Decision (matched args pack).
Proof. unfold matched. apply _. Defined.

Lemma append_loop_filter {A : Type} (b : A → bool) (l acc : list A) :
  foldl (λ packages pack, if b pack then packages ++ [pack] else packages) acc l
  = acc ++ filter (λ x, b x = true) l.
Proof.
  revert acc. induction l as [|x l IH]; intros acc; simpl.
  - by rewrite app_nil_r.
  - rewrite IH, filter_cons. destruct (b x) eqn:Hb.
    + rewrite decide_True by done. by rewrite <- app_assoc.
    + rewrite decide_False by (by intros ?). done.
Qed.

(** With at least one filter string, the two nested loops compute a filter
    of the fixed list. *)
Lemma select_packages_filter (args : list string) :
  args ≠ [] → select_packages args = filter (matched args) all_packages.
Proof.
  intros Hne. unfold select_packages.
  destruct args as [|a args]; [done|].
  by rewrite append_loop_filter.
Qed.

Lemma filter_fixpoint {A : Type} (P : A → Prop) `{!∀ x, Decision (P x)} (l : list A) :
  filter P l = l ↔ Forall P l.
Proof.
  split.
  - intros Heq. apply Forall_forall. intros x Hx.
    rewrite <- Heq in Hx. by apply list_elem_of_filter in Hx as [? _].
  - induction 1 as [|x l Hx _ IH]; [done|].
    rewrite filter_cons, decide_True by done. by rewrite IH.
Qed.

Lemma all_packages_NoDup : NoDup all_packages.
Proof. apply (bool_decide_unpack _). vm_compute. exact I. Qed.

(** C3, as found in the code.  For every filter sequence the selected
    platforms form a subsequence of the fixed list (order kept) without
    repetition, and the selection is the whole list when there is no
    filter; it is the whole list for a non-empty sequence too, as soon as
    every platform contains one of the filter strings. *)
Theorem select_packages_subsequence (args : list string) :
  select_packages args `sublist_of` all_packages
  ∧ NoDup (select_packages args)
  ∧ (args = [] → select_packages args = all_packages)
  ∧ (select_packages args = all_packages
       ↔ args = [] ∨ Forall (matched args) all_packages).
Proof.
  destruct (decide (args = [])) as [->|Hne].
  - split_and!; [done|apply all_packages_NoDup|done|].
    split; [by left|done].
  - rewrite (select_packages_filter _ Hne).
    split_and!.
    + apply sublist_filter.
    + apply NoDup_filter, all_packages_NoDup.
    + done.
    + rewrite filter_fixpoint. split; [by right|]. by intros [?|?].
Qed.

(** C3 as worded fails: the single filter ["-"] is not empty, yet it
    selects the whole list, because every identifier contains a dash. *)
Lemma select_packages_dash_selects_all :
  ¬ (select_packages ["-"] = all_packages ↔ ["-"] = @nil string).
Proof. intros [H _]. by specialize (H eq_refl). Qed.

(** * The archiver *)

Section Archiver.

Context (shell : string → fsmap → fsmap).

(** C1.  With product name "Foo" and version "2.1", the bundle directory
    of darwin-x64 is archived under the name Foo-2.1-macos-x64 with the
    extension dmg, through the disk-image tool, whatever the layout flag;
    the archiving loop hands win32-ia32 to the zip tool as
    Foo-2.1-win32-ia32.zip with the unwrapped layout. *)
Theorem archive_naming_foo (w : world) (unwrapped : bool) :
  let dmg := "rm -f dist/Foo-2.1-macos-x64.dmg; node_modules/.bin/appdmg resources/pack-dmg-spec.json dist/Foo-2.1-macos-x64.dmg" in
  let zip := "cd dist/Foo-win32-ia32; rm -f ../Foo-2.1-win32-ia32.zip; zip -q -r ../Foo-2.1-win32-ia32.zip *" in
  makezip shell (PStr "Foo") (PStr "2.1") "dist/Foo-darwin-x64" unwrapped w
  = (inr (), World (shell dmg (fs w))
                   (out w ++ [Print "AppDMGing up: dist/Foo-darwin-x64 to Foo-2.1-macos-x64";
                              Call dmg]))
  ∧ archive_all shell (PStr "Foo") (PStr "2.1") ["darwin-x64"] w
  = (inr (), World (shell dmg (fs w))
                   (out w ++ [Print "AppDMGing up: dist/Foo-darwin-x64 to Foo-2.1-macos-x64";
                              Call dmg]))
  ∧ archive_all shell (PStr "Foo") (PStr "2.1") ["win32-ia32"] w
  = (inr (), World (shell zip (fs w))
                   (out w ++ [Print "Zipping up: dist/Foo-win32-ia32 to Foo-2.1-win32-ia32 (unwrapped)";
                              Call zip])).
Proof.
  split_and!; cbv -[app]; by rewrite <- app_assoc.
Qed.

(** C4.  When the base name of the bundle directory does not start with
    the product name followed by a dash, the archiver raises and leaves
    the world as it found it: no command was spawned (so no archive was
    deleted or written) and nothing was printed. *)
Theorem makezip_prefix_violation
    (product_name : string) (product_version : pyval)
    (dir : string) (unwrapped : bool) (w : world) :
  Str.startswith (OsPath.split dir).2 (product_name +:+ "-") = false →
  makezip shell (PStr product_name) product_version dir unwrapped w
  = (inl (Exception "path does not have the prefix"), w).
Proof.
  intros Hprefix. unfold makezip, add_str, mbind, M_bind, mret, M_ret.
  by rewrite Hprefix.
Qed.

(** C2, evaluated where it breaks.  The product "darwinia" bundled for
    win32-x64: the raw platform identifier has no "darwin" in it, yet the
    archiver takes the disk-image path, because it looks for "darwin" in
    the whole archive name. *)
Theorem makezip_disk_image_for_win32 (w : world) :
  let dmg := "rm -f dist/macosia-1.0-win32-x64.dmg; node_modules/.bin/appdmg resources/pack-dmg-spec.json dist/macosia-1.0-win32-x64.dmg" in
  Str.contains "darwin" "win32-x64" = false
  ∧ archive_all shell (PStr "darwinia") (PStr "1.0") ["win32-x64"] w
    = (inr (), World (shell dmg (fs w))
                     (out w ++ [Print "AppDMGing up: dist/darwinia-win32-x64 to macosia-1.0-win32-x64";
                                Call dmg])).
Proof.
  split; [reflexivity|]. cbv -[app]. by rewrite <- app_assoc.
Qed.

(** C5, evaluated where it breaks.  The product "darwinia", version
    "1.0-darwin", bundled for darwin-x64: the substitution rewrites the
    product name and the version inside the archive name as well. *)
Theorem makezip_renames_product (w : world) (unwrapped : bool) :
  let dmg := "rm -f dist/macosia-1.0-macos-macos-x64.dmg; node_modules/.bin/appdmg resources/pack-dmg-spec.json dist/macosia-1.0-macos-macos-x64.dmg" in
  makezip shell (PStr "darwinia") (PStr "1.0-darwin") "dist/darwinia-darwin-x64" unwrapped w
  = (inr (), World (shell dmg (fs w))
                   (out w ++ [Print "AppDMGing up: dist/darwinia-darwin-x64 to macosia-1.0-macos-macos-x64";
                              Call dmg])).
Proof.
  cbv -[app]. by rewrite <- app_assoc.
Qed.

End Archiver.

Lemma makezip_prefix_violation_witness :
  makezip Sample.bundler (PStr "Foo") (PStr "2.1") "dist/Bar-win32-x64" false Sample.start
  = (inl (Exception "path does not have the prefix"), Sample.start).
Proof. apply makezip_prefix_violation. reflexivity. Defined.

(** * What a run adds to the log *)

(** Every event a computation adds to the log satisfies [P]. *)
Definition emits {A : Type} (P : event → Prop) (m : M A) : Prop :=
  ∀ w, ∃ l, out (m w).2 = out w ++ l ∧ Forall P l.

(** The shell commands among some events. *)
Definition calls (l : list event) : list string :=
  omap (λ e, match e with Call cmd => Some cmd | Print _ => None end) l.

(** The events a run added to the log it started from. *)
Definition added (w w' : world) : list event := drop (length (out w)) (out w').

Lemma added_app (w w' : world) (l : list event) : out w' = out w ++ l → added w w' = l.
Proof. intros Hout. unfold added. by rewrite Hout, drop_app_length. Qed.

Lemma bind_run {A B : Type} (m : M A) (k : A → M B) (w : world) :
  (m ≫= k) w = match m w with
               | (inl e, w') => (inl e, w')
               | (inr x, w') => k x w'
               end.
Proof. reflexivity. Qed.

Lemma bind_ok {A B : Type} (m : M A) (k : A → M B) (w w' : world) (y : B) :
  (m ≫= k) w = (inr y, w') → ∃ x w1, m w = (inr x, w1) ∧ k x w1 = (inr y, w').
Proof.
  rewrite bind_run. destruct (m w) as [[e|x] w1]; [done|]. eauto.
Qed.

Section Emits.

Context {P : event → Prop}.

Lemma emits_ret {A : Type} (x : A) : emits P (mret x).
Proof. intros w. exists []. by rewrite app_nil_r. Qed.

Lemma emits_raise {A : Type} (e : exn) : emits P (raise (A:=A) e).
Proof. intros w. exists []. by rewrite app_nil_r. Qed.

Lemma emits_print (line : string) : P (Print line) → emits P (print line).
Proof. intros HP w. exists [Print line]. split; [done|]. by constructor. Qed.

Lemma emits_on_fs (op : fsmap → result fsmap) : emits P (on_fs op).
Proof.
  intros w. exists []. rewrite app_nil_r. unfold on_fs.
  by destruct (op (fs w)).
Qed.

Lemma emits_bind {A B : Type} (m : M A) (k : A → M B) :
  emits P m → (∀ x, emits P (k x)) → emits P (m ≫= k).
Proof.
  intros Hm Hk w. rewrite bind_run.
  destruct (Hm w) as (l1 & Hout1 & Hl1).
  destruct (m w) as [[e|x] w1]; simpl in *; [by eauto|].
  destruct (Hk x w1) as (l2 & Hout2 & Hl2).
  exists (l1 ++ l2). rewrite Hout2, Hout1, <- app_assoc.
  split; [done|]. by apply Forall_app.
Qed.

Lemma emits_for {A : Type} (l : list A) (body : A → M unit) :
  (∀ x, emits P (body x)) → emits P (for_ l body).
Proof.
  intros Hbody. induction l as [|x l IH]; simpl.
  - apply emits_ret.
  - by apply emits_bind.
Qed.

Lemma emits_quiet {A : Type} (m : M A) :
  (∀ w, out (m w).2 = out w) → emits P m.
Proof. intros Hm w. exists []. by rewrite app_nil_r. Qed.

End Emits.

Lemma emits_added {A : Type} (P : event → Prop) (m : M A) (w : world) :
  emits P m → Forall P (added w (m w).2).
Proof.
  intros Hm. destruct (Hm w) as (l & Hout & Hl).
  by rewrite (added_app _ _ _ Hout).
Qed.

Section ScriptLogs.

Context (cwd : path) (shell : string → fsmap → fsmap) (json_loads : string → option pydoc).

Context {P : event → Prop}.

Lemma emits_isdir (s : string) : emits P (isdir cwd s).
Proof. by apply emits_quiet. Qed.

Lemma emits_listdir (s : string) : emits P (listdir cwd s).
Proof.
  apply emits_quiet. intros w. unfold listdir.
  by destruct (Fs.listdir cwd (fs w) s).
Qed.

Lemma emits_open_read (s : string) : emits P (open_read cwd s).
Proof.
  apply emits_quiet. intros w. unfold open_read.
  by destruct (Fs.read cwd (fs w) s).
Qed.

Lemma emits_json_load (text : string) : emits P (json_load json_loads text).
Proof.
  unfold json_load. destruct (json_loads text); [apply emits_ret|apply emits_raise].
Qed.

Lemma emits_getitem (pkg : pydoc) (key : string) : emits P (getitem pkg key).
Proof.
  unfold getitem. destruct pkg as [items|]; [|apply emits_raise].
  destruct (items !! key); [apply emits_ret|apply emits_raise].
Qed.

Lemma emits_read_manifest : emits P (read_manifest cwd json_loads).
Proof.
  unfold read_manifest.
  repeat (apply emits_bind; [|intros ?]);
    auto using emits_open_read, emits_json_load, emits_getitem, emits_ret.
Qed.

(** Staging prints one line and spawns nothing. *)
Lemma emits_install (resourcedir : string) :
  (∀ line, P (Print line)) → emits P (install cwd resourcedir).
Proof.
  intros HP. unfold install.
  apply emits_bind; [apply emits_isdir|]. intros ok.
  destruct ok; cbn [negb]; [|apply emits_raise].
  repeat (apply emits_bind; [first [by apply emits_print|apply emits_on_fs]|intros _]).
  apply emits_for. intros filename.
  apply emits_bind; [apply emits_isdir|]. intros d.
  destruct d; cbn [negb]; [|apply emits_on_fs].
  apply emits_bind; [apply emits_on_fs|]. intros _.
  apply emits_bind; [apply emits_listdir|]. intros subfiles.
  apply emits_for. intros subfile. apply emits_on_fs.
Qed.

End ScriptLogs.

(** * Reading the metadata *)

(** A bundler command, as [builddir] composes it. *)
Definition is_bundler_cmd (cmd : string) : bool :=
  Str.startswith cmd "npm run package-".

(** An archiving command, as [makezip] composes it. *)
Definition is_archiver_cmd (cmd : string) : bool :=
  Str.startswith cmd "rm -f dist/" || Str.startswith cmd "cd ".

Lemma archiver_cmd_not_bundler (cmd : string) :
  is_archiver_cmd cmd = true → is_bundler_cmd cmd = false.
Proof.
  unfold is_archiver_cmd, is_bundler_cmd, Str.startswith.
  destruct cmd as [|c cmd]; [done|].
  destruct c as [[] [] [] [] [] [] [] []]; by cbn.
Qed.

Section Manifest.

Context (cwd : path) (shell : string → fsmap → fsmap) (json_loads : string → option pydoc).

(** [package.json] can be read and decodes to a dict that has both keys,
    with the values [v] and [n]. *)
Definition manifest_ok (m : fsmap) (v n : pyval) : Prop :=
  ∃ text items,
    Fs.read cwd m "package.json" = inr text
    ∧ json_loads text = Some (PDict items)
    ∧ items !! "version" = Some v
    ∧ items !! "productName" = Some n.

Lemma read_manifest_run (w : world) :
  read_manifest cwd json_loads w =
  match Fs.read cwd (fs w) "package.json" with
  | inl e => (inl e, w)
  | inr text =>
      match json_loads text with
      | None => (inl JSONDecodeError, w)
      | Some PNotDict => (inl TypeError, w)
      | Some (PDict items) =>
          match items !! "version", items !! "productName" with
          | None, _ => (inl (KeyError "version"), w)
          | Some _, None => (inl (KeyError "productName"), w)
          | Some v, Some n => (inr (v, n), w)
          end
      end
  end.
Proof.
  unfold read_manifest, open_read, json_load, getitem.
  rewrite bind_run.
  destruct (Fs.read cwd (fs w) "package.json") as [e|text]; [done|].
  rewrite bind_run.
  destruct (json_loads text) as [[items|]|]; [|done..].
  cbn. rewrite !bind_run.
  destruct (items !! "version"); [|done].
  cbn. by destruct (items !! "productName").
Qed.

(** Reading succeeds exactly on a good manifest, and never changes the
    world. *)
Lemma read_manifest_ok (w w' : world) (v n : pyval) :
  read_manifest cwd json_loads w = (inr (v, n), w') ↔ w' = w ∧ manifest_ok (fs w) v n.
Proof.
  rewrite read_manifest_run. unfold manifest_ok. split.
  - destruct (Fs.read cwd (fs w) "package.json") as [e|text]; [done|].
    destruct (json_loads text) as [[items|]|] eqn:Hdoc; [|done..].
    destruct (items !! "version") as [v'|] eqn:Hv; [|done].
    destruct (items !! "productName") as [n'|] eqn:Hn; [|done].
    intros [= -> -> ->]. split; [done|]. by exists text, items.
  - intros (-> & text & items & -> & -> & -> & ->). done.
Qed.

Lemma read_manifest_fails (w : world) :
  (¬ ∃ v n, manifest_ok (fs w) v n) →
  ∃ e, read_manifest cwd json_loads w = (inl e, w).
Proof.
  intros Hbad.
  destruct (read_manifest cwd json_loads w) as [[e|[v n]] w'] eqn:Hrun.
  - exists e. rewrite read_manifest_run in Hrun. rewrite <- Hrun.
    repeat case_match; simplify_eq; done.
  - apply read_manifest_ok in Hrun as [_ Hok]. destruct Hbad; eauto.
Qed.

End Manifest.

(** * The phases and what they spawn *)

Lemma prefix_append (a b : string) : String.prefix a (a +:+ b) = true.
Proof.
  induction a as [|c a IH]; simpl.
  - by destruct b.
  - unfold String.app. simpl. destruct (ascii_dec c c); [apply IH|done].
Qed.

Lemma calls_app (l1 l2 : list event) : calls (l1 ++ l2) = calls l1 ++ calls l2.
Proof. apply omap_app. Qed.

Lemma calls_no_call (l : list event) :
  Forall (λ e, ∀ cmd, e ≠ Call cmd) l → calls l = [].
Proof.
  induction 1 as [|e l He _ IH]; [done|].
  destruct e as [line|cmd]; [done|]. by destruct (He cmd).
Qed.

Lemma calls_Forall (Q : string → Prop) (l : list event) :
  Forall (λ e, match e with Call cmd => Q cmd | Print _ => True end) l →
  Forall Q (calls l).
Proof.
  induction 1 as [|e l He _ IH]; [constructor|].
  destruct e as [line|cmd]; [done|]. by constructor.
Qed.

(** A loop that ran to its end ran its body on every element, in order;
    [Q x evs] is what one round for [x] is known to add to the log. *)
Lemma for_ok {A : Type} (Q : A → list event → Prop) (body : A → M unit)
    (l : list A) (w w' : world) :
  (∀ x w1 w2, body x w1 = (inr (), w2) → ∃ evs, out w2 = out w1 ++ evs ∧ Q x evs) →
  for_ l body w = (inr (), w') →
  ∃ evss, out w' = out w ++ concat evss ∧ Forall2 Q l evss.
Proof.
  intros Hbody. revert w. induction l as [|x l IH]; intros w Hrun; simpl in Hrun.
  - injection Hrun as <-. exists []. split; [by rewrite app_nil_r|constructor].
  - apply bind_ok in Hrun as ([] & w1 & Hx & Hrest).
    destruct (Hbody _ _ _ Hx) as (evs & Hout1 & HQ).
    destruct (IH _ Hrest) as (evss & Hout & Hall).
    exists (evs :: evss). split; [|by constructor].
    simpl. by rewrite Hout, Hout1, <- app_assoc.
Qed.

Section Phases.

Context (cwd : path) (shell : string → fsmap → fsmap) (json_loads : string → option pydoc).

(** The bundle builder always spawns the bundler, once, and adds nothing
    else to the log, whether the steps after the bundler succeed or not. *)
Lemma builddir_out (dir pack : string) (w : world) :
  out (builddir cwd shell dir pack w).2 = out w ++ [Call ("npm run package-" +:+ pack)].
Proof.
  unfold builddir. rewrite bind_run. unfold subprocess_call at 1.
  set (w1 := World _ _).
  assert (emits (λ _, False)
            (for_ rootfiles (λ filename, copyfile cwd filename (OsPath.join dir filename));;
             unlink cwd (OsPath.join dir "version"))) as Hrest.
  { apply emits_bind; [|intros _; apply emits_on_fs].
    apply emits_for. intros filename. apply emits_on_fs. }
  destruct (Hrest w1) as (l & Hout & Hl).
  destruct l as [|e l]; [|by inversion Hl].
  by rewrite Hout, app_nil_r.
Qed.

Lemma emits_builddir (P : event → Prop) (dir pack : string) :
  P (Call ("npm run package-" +:+ pack)) → emits P (builddir cwd shell dir pack).
Proof.
  intros HP w. eexists. split; [apply builddir_out|]. by repeat constructor.
Qed.

Lemma print_call_run (line cmd : string) (w : world) :
  (print line;; subprocess_call shell cmd) w
  = (inr (), World (shell cmd (fs w)) (out w ++ [Print line; Call cmd])).
Proof.
  unfold print, subprocess_call. rewrite bind_run. cbn. by rewrite <- app_assoc.
Qed.

(** The command the archiver spawns for a platform, in every world. *)
Definition archiver_spawns (product_name product_version : pyval)
    (dir : string) (unwrapped : bool) (cmd : string) : Prop :=
  ∀ w, ∃ line,
    makezip shell product_name product_version dir unwrapped w
    = (inr (), World (shell cmd (fs w)) (out w ++ [Print line; Call cmd])).

(** An archiver call that returns printed one line and spawned one
    archiving command. *)
Lemma makezip_ok (product_name product_version : pyval) (dir : string)
    (unwrapped : bool) (w w' : world) :
  makezip shell product_name product_version dir unwrapped w = (inr (), w') →
  ∃ line cmd,
    out w' = out w ++ [Print line; Call cmd]
    ∧ is_archiver_cmd cmd = true
    ∧ archiver_spawns product_name product_version dir unwrapped cmd.
Proof.
  unfold archiver_spawns, makezip.
  destruct product_name as [name|]; [|done].
  cbn [add_str]. rewrite bind_run. cbn [mret M_ret].
  destruct (Str.startswith _ _) eqn:Hprefix; cbn [negb]; [|done].
  destruct product_version as [version|]; [|done].
  cbn [str_add]. rewrite bind_run. cbn [mret M_ret].
  assert (∀ line cmd,
    is_archiver_cmd cmd = true →
    (print line;; subprocess_call shell cmd) w = (inr (), w') →
    (∀ w1, makezip shell (PStr name) (PStr version) dir unwrapped w1
           = (print line;; subprocess_call shell cmd) w1) →
    ∃ line cmd,
      out w' = out w ++ [Print line; Call cmd] ∧ is_archiver_cmd cmd = true
      ∧ ∀ w1, ∃ line,
          makezip shell (PStr name) (PStr version) dir unwrapped w1
          = (inr (), World (shell cmd (fs w1)) (out w1 ++ [Print line; Call cmd])))
    as Hbranch.
  { intros line cmd Hcmd Hrun Hall. exists line, cmd.
    rewrite print_call_run in Hrun. injection Hrun as <-.
    split_and!; [done..|].
    intros w1. exists line. by rewrite Hall, print_call_run. }
  destruct (Str.contains "darwin" _) eqn:Hdarwin; [|destruct unwrapped].
  all: intros Hrun; eapply Hbranch; [|exact Hrun|].
  all: try (intros w1; unfold makezip; cbn [add_str str_add];
            rewrite bind_run; cbn [mret M_ret]; rewrite Hprefix; cbn [negb];
            rewrite bind_run; cbn [mret M_ret]; rewrite Hdarwin; reflexivity).
  all: unfold is_archiver_cmd, Str.startswith; by rewrite prefix_append, ?orb_true_r.
Qed.

(** An archiver call that raises did so before printing or spawning. *)
Lemma makezip_fail (product_name product_version : pyval) (dir : string)
    (unwrapped : bool) (w w' : world) (e : exn) :
  makezip shell product_name product_version dir unwrapped w = (inl e, w') → w' = w.
Proof.
  unfold makezip.
  destruct product_name as [name|]; [|by intros [= _ <-]].
  cbn [add_str]. rewrite bind_run. cbn [mret M_ret].
  destruct (Str.startswith _ _); cbn [negb]; [|by intros [= _ <-]].
  destruct product_version as [version|]; [|by intros [= _ <-]].
  cbn [str_add]. rewrite bind_run. cbn [mret M_ret].
  destruct (Str.contains "darwin" _); [|destruct unwrapped];
    by rewrite print_call_run.
Qed.

Lemma emits_makezip (P : event → Prop) (product_name product_version : pyval)
    (dir : string) (unwrapped : bool) :
  (∀ line, P (Print line)) →
  (∀ cmd, is_archiver_cmd cmd = true → P (Call cmd)) →
  emits P (makezip shell product_name product_version dir unwrapped).
Proof.
  intros Hprint Hcall w.
  destruct (makezip shell product_name product_version dir unwrapped w)
    as [[e|[]] w'] eqn:Hrun.
  - apply makezip_fail in Hrun as ->. exists []. by rewrite app_nil_r.
  - apply makezip_ok in Hrun as (line & cmd & Hout & Hcmd & _).
    eexists. split; [exact Hout|]. repeat constructor; auto.
Qed.

(** After the metadata: staging prints, and the only commands are those
    of the phases that are switched on. *)
Lemma emits_run_packages (P : event → Prop) (opts : Opts.t) (args : list string)
    (product_name product_version : pyval) :
  let doall := negb (Opts.makedist opts || Opts.makezip opts || Opts.makenothing opts) in
  (∀ line, P (Print line)) →
  (doall || Opts.makedist opts = true → ∀ cmd, is_bundler_cmd cmd = true → P (Call cmd)) →
  (doall || Opts.makezip opts = true → ∀ cmd, is_archiver_cmd cmd = true → P (Call cmd)) →
  emits P (run_packages cwd shell opts args product_name product_version).
Proof.
  intros doall Hprint Hbuild Hzip. unfold run_packages.
  destruct (select_packages args) as [|pack packages]; [apply emits_raise|].
  repeat (apply emits_bind;
          [first [apply emits_on_fs|by apply emits_install]|intros _]).
  fold doall. apply emits_bind; [|intros _].
  - destruct (doall || Opts.makedist opts) eqn:Hon; [|apply emits_ret].
    apply emits_for. intros p. apply emits_builddir, Hbuild; [done|].
    unfold is_bundler_cmd, Str.startswith. apply prefix_append.
  - destruct (doall || Opts.makezip opts) eqn:Hon; [|apply emits_ret].
    apply emits_for. intros p. apply emits_makezip; auto.
Qed.

Lemma emits_main (P : event → Prop) (opts : Opts.t) (args : list string) :
  let doall := negb (Opts.makedist opts || Opts.makezip opts || Opts.makenothing opts) in
  (∀ line, P (Print line)) →
  (doall || Opts.makedist opts = true → ∀ cmd, is_bundler_cmd cmd = true → P (Call cmd)) →
  (doall || Opts.makezip opts = true → ∀ cmd, is_archiver_cmd cmd = true → P (Call cmd)) →
  emits P (main cwd shell json_loads opts args).
Proof.
  intros doall Hprint Hbuild Hzip. unfold main.
  apply emits_bind; [apply emits_read_manifest|]. intros [product_version product_name].
  apply emits_bind; [by apply emits_print|]. intros _.
  by apply emits_run_packages.
Qed.

(** The run, unfolded up to the metadata. *)
Lemma main_run (opts : Opts.t) (args : list string) (w : world) :
  main cwd shell json_loads opts args w =
  match read_manifest cwd json_loads w with
  | (inl e, w') => (inl e, w')
  | (inr (v, n), w') =>
      run_packages cwd shell opts args n v
        (World (fs w') (out w' ++ [Print (str_of n +:+ " version: " +:+ str_of v)]))
  end.
Proof.
  unfold main. rewrite bind_run.
  destruct (read_manifest cwd json_loads w) as [[e|[v n]] w']; [done|].
  by rewrite bind_run.
Qed.

End Phases.

(** * The run as a whole *)

Lemma filter_none {A : Type} (P : A → Prop) `{!∀ x, Decision (P x)} (l : list A) :
  Forall (λ x, ¬ P x) l → filter P l = [].
Proof.
  induction 1 as [|x l Hx _ IH]; [done|].
  by rewrite filter_cons, decide_False.
Qed.

Lemma bundler_cmd_not_archiver (cmd : string) :
  is_bundler_cmd cmd = true → is_archiver_cmd cmd = false.
Proof.
  intros Hb. destruct (is_archiver_cmd cmd) eqn:Ha; [|done].
  apply archiver_cmd_not_bundler in Ha. congruence.
Qed.

Lemma calls_builds (l : list string) (evss : list (list event)) :
  Forall2 (λ pack evs, evs = [Call ("npm run package-" +:+ pack)]) l evss →
  calls (concat evss) = (λ pack, "npm run package-" +:+ pack) <$> l.
Proof.
  induction 1 as [|pack evs l evss -> _ IH]; [done|].
  cbn [concat]. rewrite calls_app, IH. done.
Qed.

Lemma calls_archives (R : string → string → Prop) (l : list string)
    (evss : list (list event)) :
  Forall2 (λ pack evs, ∃ line cmd, evs = [Print line; Call cmd] ∧ R pack cmd) l evss →
  ∃ zs, calls (concat evss) = zs ∧ Forall2 R l zs.
Proof.
  induction 1 as [|pack evs l evss (line & cmd & -> & HR) _ (zs & Hzs & IH)].
  - exists []. by split.
  - exists (cmd :: zs). split; [|by constructor].
    cbn [concat]. rewrite calls_app, Hzs. done.
Qed.

Lemma on_fs_out (op : fsmap → result fsmap) (w : world) : out (on_fs op w).2 = out w.
Proof. unfold on_fs. by destruct (op (fs w)). Qed.

Section Run.

Context (cwd : path) (shell : string → fsmap → fsmap) (json_loads : string → option pydoc).

Local Abbreviation main := (main cwd shell json_loads).
Local Abbreviation manifest_ok := (manifest_ok cwd json_loads).

(** C8, as found in the code.  The run stops at the metadata, with the
    world untouched, unless [package.json] can be read and decodes to a
    dict that has both keys; the values under the keys are not looked at:
    with any two values, empty strings included, the run goes on and
    prints its version line. *)
Theorem manifest_keys_required (opts : Opts.t) (args : list string) (w : world) :
  ((¬ ∃ v n, manifest_ok (fs w) v n) → ∃ e, main opts args w = (inl e, w))
  ∧ (∀ v n, manifest_ok (fs w) v n →
       ∃ rest, added w (main opts args w).2
               = Print (str_of n +:+ " version: " +:+ str_of v) :: rest).
Proof.
  split.
  - intros Hbad. destruct (read_manifest_fails cwd json_loads w Hbad) as [e He].
    exists e. by rewrite main_run, He.
  - intros v n Hok.
    assert (read_manifest cwd json_loads w = (inr (v, n), w)) as Hread
      by by apply read_manifest_ok.
    rewrite main_run, Hread.
    set (w1 := World _ _).
    destruct (emits_run_packages cwd shell (λ _, True) opts args n v
                ltac:(done) ltac:(done) ltac:(done) w1) as (rest & Hout & _).
    exists rest. apply added_app. rewrite Hout. subst w1. simpl.
    by rewrite <- app_assoc.
Qed.


(** How the phases follow the flags.  With the dry-run flag alone no
    command is spawned at all.  With the dry-run flag and others, each
    phase follows its own flag: without [--build] no bundler command is
    spawned, without [--zip] no archiving command is spawned, whatever
    the other flag is.  With no flag at all, a run that completes has
    spawned the bundler for every selected platform, in order, and then
    the archiver's command for every selected platform, in order. *)
Theorem phases_follow_flags (args : list string) (w : world) :
  calls (added w (main (Opts.Make false false true) args w).2) = []
  ∧ (∀ zip, Forall (λ cmd, is_bundler_cmd cmd = false)
            (calls (added w (main (Opts.Make false zip true) args w).2)))
  ∧ (∀ build, Forall (λ cmd, is_archiver_cmd cmd = false)
                (calls (added w (main (Opts.Make build false true) args w).2)))
  ∧ ((main (Opts.Make false false false) args w).1 = inr () →
     ∃ v n zs,
       manifest_ok (fs w) v n
       ∧ calls (added w (main (Opts.Make false false false) args w).2)
         = ((λ pack, "npm run package-" +:+ pack) <$> select_packages args) ++ zs
       ∧ Forall2 (λ pack cmd,
                    archiver_spawns shell n v (dest n pack) (Str.contains "win32" pack) cmd)
                 (select_packages args) zs).
Proof.
  split_and!.
  - apply calls_no_call, emits_added, emits_main; done.
  - intros zip. apply calls_Forall, emits_added, emits_main.
    + done.
    + by destruct zip.
    + intros _ cmd. apply archiver_cmd_not_bundler.
  - intros build. apply calls_Forall, emits_added, emits_main.
    + done.
    + intros _ cmd. apply bundler_cmd_not_archiver.
    + by destruct build.
  - destruct (main _ args w) as [r w'] eqn:Hmain. simpl. intros ->.
    rewrite main_run in Hmain.
    destruct (read_manifest cwd json_loads w) as [[e|[v n]] w0] eqn:Hread; [done|].
    apply read_manifest_ok in Hread as [-> Hok].
    exists v, n. unfold run_packages in Hmain.
    destruct (select_packages args) as [|p ps] eqn:Hsel; [done|].
    rewrite <- Hsel in *. clear Hsel p ps.
    apply bind_ok in Hmain as ([] & w1 & Hdir1 & Hmain).
    apply bind_ok in Hmain as ([] & w2 & Hinst & Hmain).
    apply bind_ok in Hmain as ([] & w3 & Hdir2 & Hmain).
    apply bind_ok in Hmain as ([] & w4 & Hbuild & Hzip).
    cbn in Hbuild, Hzip.
    pose proof (on_fs_out (λ m, Fs.makedirs cwd m "tempapp") (World (fs w) (out w ++ [Print (str_of n +:+ " version: " +:+ str_of v)]))) as Hout1.
    unfold makedirs in Hdir1, Hdir2. rewrite Hdir1 in Hout1. simpl in Hout1.
    destruct (emits_install cwd (P:=λ e, ∀ cmd, e ≠ Call cmd) "tempapp"
                ltac:(done) w1) as (staged & Hout2 & Hstaged).
    rewrite Hinst in Hout2. simpl in Hout2.
    pose proof (on_fs_out (λ m, Fs.makedirs cwd m "dist") w2) as Hout3.
    rewrite Hdir2 in Hout3. simpl in Hout3.
    apply (for_ok (λ pack evs, evs = [Call ("npm run package-" +:+ pack)])) in Hbuild
      as (builds & Hout4 & Hbuilds).
    2: { intros pack wa wb Hpack. eexists. split; [|done].
         pose proof (builddir_out cwd shell (dest n pack) pack wa) as Hb.
         by rewrite Hpack in Hb. }
    apply (for_ok (λ pack evs, ∃ line cmd,
             evs = [Print line; Call cmd]
             ∧ archiver_spawns shell n v (dest n pack) (Str.contains "win32" pack) cmd))
      in Hzip as (archives & Hout5 & Harchives).
    2: { intros pack wa wb Hpack.
         apply makezip_ok in Hpack as (line & cmd & Hout & _ & Hspawn). eauto 6. }
    apply calls_archives in Harchives as (zs & Hzs & Hall).
    exists zs. split_and!; [done| |done].
    erewrite added_app.
    2: { rewrite Hout5, Hout4, Hout3, Hout2, Hout1, <- !app_assoc. done. }
    rewrite !calls_app, (calls_no_call staged), (calls_builds _ _ Hbuilds), Hzs by done.
    done.
Qed.

(** C7, as found in the code.  Once the bundler has run and the root
    files are copied, the bundle builder unlinks [version] in the output
    directory: a plain file there is deleted and the step returns; with
    nothing there the step raises, and so it does on a directory. *)
Theorem builddir_version_marker (dir pack : string) (w : world) (marker : path) :
  let before :=
    (subprocess_call shell ("npm run package-" +:+ pack);;
     for_ rootfiles (λ filename, copyfile cwd filename (OsPath.join dir filename))) w in
  before.1 = inr () →
  Fs.resolve cwd (OsPath.join dir "version") = Some marker →
  builddir cwd shell dir pack w =
  match Fs.get (fs before.2) marker with
  | Some (File _) => (inr (), World (delete marker (fs before.2)) (out before.2))
  | Some Dir => (inl (IsADirectoryError (OsPath.join dir "version")), before.2)
  | None => (inl (Fs.missing (fs before.2) (OsPath.join dir "version") marker), before.2)
  end.
Proof.
  intros before Hbefore Hmarker.
  destruct before as [r w1] eqn:Hrun. cbn [fst snd] in *. subst r.
  apply bind_ok in Hrun as ([] & w0 & Hcall & Hcopies).
  unfold builddir. rewrite bind_run, Hcall, bind_run, Hcopies.
  unfold unlink, on_fs, Fs.unlink. rewrite Hmarker.
  by destruct (Fs.get (fs w1) marker) as [[data|]|].
Qed.

End Run.

(** ** The run on the sample tree *)

Lemma manifest_keys_required_witness :
  ∃ rest,
    added Sample.blank
      (main Sample.cwd Sample.bundler Sample.decoder (Opts.Make false false true) []
            Sample.blank).2
    = Print (str_of (PStr "") +:+ " version: " +:+ str_of (PStr "")) :: rest.
Proof.
  refine (proj2 (manifest_keys_required Sample.cwd Sample.bundler Sample.decoder
                   (Opts.Make false false true) [] Sample.blank) (PStr "") (PStr "") _).
  eexists _, _. split_and!; vm_compute; reflexivity.
Defined.

(** C8 as worded fails: with the empty string as product name and as
    version, reading the metadata succeeds and the run goes on to stage
    every file and returns. *)
Lemma empty_metadata_accepted :
  (read_manifest Sample.cwd Sample.decoder Sample.blank).1 = inr (PStr "", PStr "")
  ∧ (main Sample.cwd Sample.bundler Sample.decoder (Opts.Make false false true) []
          Sample.blank).1 = inr ()
  ∧ Fs.get (fs (main Sample.cwd Sample.bundler Sample.decoder (Opts.Make false false true) []
                     Sample.blank).2)
           ["work"; "tempapp"; "main.js"]
    = Some (File "text of ./main.js").
Proof. split_and!; vm_compute; reflexivity. Qed.




Lemma phases_follow_flags_witness :
  ∃ v n zs,
    manifest_ok Sample.cwd Sample.decoder (fs Sample.start) v n
    ∧ calls (added Sample.start
               (main Sample.cwd Sample.bundler Sample.decoder
                     (Opts.Make false false false) ["win32"] Sample.start).2)
      = ((λ pack, "npm run package-" +:+ pack) <$> select_packages ["win32"]) ++ zs
    ∧ Forall2 (λ pack cmd,
                 archiver_spawns Sample.bundler n v (dest n pack)
                   (Str.contains "win32" pack) cmd)
              (select_packages ["win32"]) zs.
Proof.
  refine (proj2 (proj2 (proj2 (phases_follow_flags Sample.cwd Sample.bundler Sample.decoder
                                 ["win32"] Sample.start))) _).
  vm_compute. reflexivity.
Defined.

(** C6: the code breaks the claim, and the help text of [--none] ("do
    nothing except look at the arguments").  With [--none] and [--build]
    together the bundle builder runs, here for the one selected
    platform. *)
Lemma dry_run_with_build_builds :
  Opts.makenothing (Opts.Make true false true) = true
  ∧ calls (added Sample.start
             (main Sample.cwd Sample.bundler Sample.decoder
                   (Opts.Make true false true) ["win32-ia32"] Sample.start).2)
    = ["npm run package-win32-ia32"].
Proof. split; vm_compute; reflexivity. Qed.

Lemma builddir_version_marker_witness :
  let before :=
    (subprocess_call Sample.bundler ("npm run package-" +:+ "linux-x64");;
     for_ rootfiles (λ filename,
       copyfile Sample.cwd filename (OsPath.join "dist/App-linux-x64" filename)))
      Sample.start in
  let marker := ["work"; "dist"; "App-linux-x64"; "version"] in
  builddir Sample.cwd Sample.bundler "dist/App-linux-x64" "linux-x64" Sample.start =
  match Fs.get (fs before.2) marker with
  | Some (File _) => (inr (), World (delete marker (fs before.2)) (out before.2))
  | Some Dir => (inl (IsADirectoryError (OsPath.join "dist/App-linux-x64" "version")), before.2)
  | None =>
      (inl (Fs.missing (fs before.2) (OsPath.join "dist/App-linux-x64" "version") marker),
       before.2)
  end.
Proof.
  apply (builddir_version_marker Sample.cwd Sample.bundler "dist/App-linux-x64" "linux-x64"
           Sample.start ["work"; "dist"; "App-linux-x64"; "version"]).
  - vm_compute. reflexivity.
  - vm_compute. reflexivity.
Defined.

(** On the sample tree the marker is there and is deleted. *)
Lemma sample_marker_deleted :
  let run := builddir Sample.cwd Sample.bundler "dist/App-linux-x64" "linux-x64"
               Sample.start in
  run.1 = inr ()
  ∧ Fs.get (fs run.2) ["work"; "dist"; "App-linux-x64"; "version"] = None
  ∧ Fs.get (fs run.2) ["work"; "dist"; "App-linux-x64"; "LICENSE"]
    = Some (File "text of ./LICENSE").
Proof. split_and!; vm_compute; reflexivity. Qed.

(** C7 as worded fails: the bundler ran and made the directory, the root
    files were copied, there is no [version] file, and the step raises. *)
Lemma missing_marker_raises :
  let run := builddir Sample.cwd Sample.bundler_without_marker
               "dist/App-linux-x64" "linux-x64" Sample.start in
  Fs.get (fs run.2) ["work"; "dist"; "App-linux-x64"] = Some Dir
  ∧ Fs.get (fs run.2) ["work"; "dist"; "App-linux-x64"; "LICENSE"]
    = Some (File "text of ./LICENSE")
  ∧ Fs.get (fs run.2) ["work"; "dist"; "App-linux-x64"; "version"] = None
  ∧ run.1 = inl (FileNotFoundError "dist/App-linux-x64/version").
Proof. split_and!; vm_compute; reflexivity. Qed.

(** * Staging *)

(** ** Strings and paths *)

Lemma append_cons (c : ascii) (a b : string) : String c a +:+ b = String c (a +:+ b).
Proof. reflexivity. Qed.

Lemma append_assoc (a b c : string) : (a +:+ b) +:+ c = a +:+ (b +:+ c).
Proof. induction a as [|x a IH]; [done|]. by rewrite !append_cons, IH. Qed.

Lemma split_slash_nonempty (s : string) : Str.split_slash s ≠ [].
Proof.
  destruct s as [|c s]; [done|]. simpl.
  destruct (Ascii.eqb c "/"); [done|]. by destruct (Str.split_slash s).
Qed.

Lemma split_slash_app_slash (a b : string) :
  Str.split_slash (a +:+ "/" +:+ b) = Str.split_slash a ++ Str.split_slash b.
Proof.
  induction a as [|c a IH]; [done|].
  rewrite append_cons. simpl. rewrite IH.
  destruct (Ascii.eqb c "/"); [done|].
  pose proof (split_slash_nonempty a). by destruct (Str.split_slash a).
Qed.

Lemma prefix_slash (c : ascii) (s : string) :
  String.prefix "/" (String c s) = Ascii.eqb c "/".
Proof.
  change (String.prefix "/" (String c s))
    with (if ascii_dec "/"%char c then String.prefix "" s else false).
  destruct (ascii_dec "/" c) as [<-|Hne].
  - by destruct s.
  - symmetry. apply Ascii.eqb_neq. congruence.
Qed.

Lemma contains_slash_cons (c : ascii) (s : string) :
  Str.contains "/" (String c s) = Ascii.eqb c "/" || Str.contains "/" s.
Proof. cbn [Str.contains]. by rewrite prefix_slash. Qed.

Lemma split_slash_plain (n : string) :
  Str.contains "/" n = false → Str.split_slash n = [n].
Proof.
  induction n as [|c n IH]; [done|].
  rewrite contains_slash_cons. intros [Hc Hn]%orb_false_elim.
  simpl. by rewrite Hc, IH.
Qed.

Lemma startswith_slash_append (a b : string) :
  a ≠ "" → Str.startswith (a +:+ b) "/" = Str.startswith a "/".
Proof.
  destruct a as [|c a]; [done|]. intros _.
  unfold Str.startswith. by rewrite append_cons, !prefix_slash.
Qed.

Lemma ends_with_slash (a : string) :
  Str.startswith (Str.drop (String.length a - 1) a) "/" = true →
  ∃ a', a = a' +:+ "/".
Proof.
  induction a as [|c a IH]; [done|].
  destruct a as [|c' a].
  - unfold Str.startswith. simpl String.length. simpl Str.drop.
    rewrite prefix_slash. intros ->%Ascii.eqb_eq. by exists "".
  - replace (String.length (String c (String c' a)) - 1)
      with (S (String.length (String c' a) - 1)) by (simpl; lia).
    cbn [Str.drop]. intros [a' Ha']%IH.
    exists (String c a'). by rewrite append_cons, <- Ha'.
Qed.

Lemma walk_app (start : path) (xs ys : list string) :
  Fs.walk start (xs ++ ys) = Fs.walk (Fs.walk start xs) ys.
Proof. apply foldl_app. Qed.

Lemma resolve_nonempty (cwd : path) (s : string) :
  s ≠ "" →
  Fs.resolve cwd s
  = Some (Fs.walk (if Str.startswith s "/" then [] else cwd) (Str.split_slash s)).
Proof. by destruct s. Qed.

Lemma append_nonempty (a b : string) : a ≠ "" → a +:+ b ≠ "".
Proof. by destruct a. Qed.

(** Joining onto a resolved path with a relative, non-empty string walks
    on from that path. *)
Lemma resolve_join (cwd : path) (a b : string) (pa : path) :
  Fs.resolve cwd a = Some pa →
  Str.startswith b "/" = false →
  Fs.resolve cwd (OsPath.join a b) = Some (Fs.walk pa (Str.split_slash b)).
Proof.
  intros Ha Hrel. unfold OsPath.join. rewrite Hrel.
  assert (a ≠ "") as Hne by (by destruct a).
  rewrite resolve_nonempty in Ha by done. injection Ha as <-.
  replace (match a with "" => b | String _ _ => _ end)
    with (if Str.startswith (Str.drop (String.length a - 1) a) "/"
          then a +:+ b else a +:+ "/" +:+ b) by (by destruct a).
  destruct (Str.startswith (Str.drop _ a) "/") eqn:Hend.
  - apply ends_with_slash in Hend as [a' ->].
    rewrite resolve_nonempty by by apply append_nonempty.
    rewrite startswith_slash_append by done.
    rewrite append_assoc, split_slash_app_slash.
    change (Str.split_slash (a' +:+ "/")) with (Str.split_slash (a' +:+ "/" +:+ "")).
    rewrite (split_slash_app_slash a' ""), !walk_app. done.
  - rewrite resolve_nonempty by by apply append_nonempty.
    rewrite startswith_slash_append by done.
    by rewrite split_slash_app_slash, walk_app.
Qed.

(** ** File-system operations, step by step *)

Lemma get_nonroot (m : fsmap) (p : path) : p ≠ [] → Fs.get m p = m !! p.
Proof. by destruct p. Qed.

Lemma get_insert (m : fsmap) (k p : path) (v : node) :
  k ≠ [] →
  Fs.get (<[k := v]> m) p = if decide (k = p) then Some v else Fs.get m p.
Proof.
  intros Hk. destruct p as [|c p].
  - by rewrite decide_False.
  - cbn [Fs.get]. by rewrite lookup_insert.
Qed.

Lemma snoc_nonempty {A : Type} (l : list A) (x : A) : l ++ [x] ≠ [].
Proof. by destruct l. Qed.

(** When every directory on the way is there, [makedirs] changes nothing. *)
Lemma mkdirs_noop (s : string) (m : fsmap) (pre : path) (rest : list string) :
  (∀ k, 0 < k ≤ length rest → Fs.get m (pre ++ take k rest) = Some Dir) →
  Fs.mkdirs s m pre rest = inr m.
Proof.
  revert pre. induction rest as [|c rest IH]; intros pre Hdirs; [done|].
  cbn [Fs.mkdirs].
  pose proof (Hdirs 1 ltac:(simpl; lia)) as Hfirst.
  change (take 1 (c :: rest)) with [c] in Hfirst. rewrite Hfirst.
  apply IH. intros k Hk.
  rewrite <- app_assoc. apply (Hdirs (S k)). simpl. lia.
Qed.

(** A successful [makedirs] leaves every directory on the way in place,
    and differs from the tree before only by new directories on that way. *)
Lemma mkdirs_ok (s : string) (m m' : fsmap) (pre : path) (rest : list string) :
  Fs.mkdirs s m pre rest = inr m' →
  (∀ k, 0 < k ≤ length rest → Fs.get m' (pre ++ take k rest) = Some Dir)
  ∧ (∀ p : path, m' !! p = m !! p
          ∨ (m !! p = None ∧ m' !! p = Some Dir
             ∧ ∃ k, 0 < k ≤ length rest ∧ p = pre ++ take k rest)).
Proof.
  revert m pre. induction rest as [|c rest IH]; intros m pre Hrun.
  - injection Hrun as <-. split; [simpl; lia|]. by left.
  - cbn [Fs.mkdirs] in Hrun.
    assert (∀ k, pre ++ take (S k) (c :: rest) = (pre ++ [c]) ++ take k rest) as Hshift
      by (intros k; by rewrite <- app_assoc).
    destruct (Fs.get m (pre ++ [c])) as [[data|]|] eqn:Hq; [done| |].
    + destruct (IH _ _ Hrun) as [Hdirs Hdiff]. split.
      * intros [|[|k]] Hk; [lia| |].
        -- change (take 1 (c :: rest)) with [c].
           rewrite get_nonroot in Hq |- * by apply snoc_nonempty.
           destruct (Hdiff (pre ++ [c])) as [->|(? & ? & _)]; congruence.
        -- rewrite Hshift. apply Hdirs. simpl in Hk. lia.
      * intros p. destruct (Hdiff p) as [?|(? & ? & k & Hk & ->)]; [by left|].
        right. split_and!; [done..|]. exists (S k). rewrite Hshift. simpl. split; [lia|done].
    + rewrite get_nonroot in Hq by apply snoc_nonempty.
      destruct (IH _ _ Hrun) as [Hdirs Hdiff]. split.
      * intros [|[|k]] Hk; [lia| |].
        -- change (take 1 (c :: rest)) with [c].
           rewrite get_nonroot by apply snoc_nonempty.
           destruct (Hdiff (pre ++ [c])) as [->|(? & ? & _)]; [|done].
           by rewrite lookup_insert_eq.
        -- rewrite Hshift. apply Hdirs. simpl in Hk. lia.
      * intros p. destruct (decide (p = pre ++ [c])) as [->|Hne].
        -- right. split_and!; [done| |].
           ++ destruct (Hdiff (pre ++ [c])) as [->|(? & ? & _)]; [|done].
              by rewrite lookup_insert_eq.
           ++ exists 1. simpl. split; [lia|done].
        -- destruct (Hdiff p) as [Heq|(Hnone & ? & k & Hk & ->)].
           ++ left. by rewrite Heq, lookup_insert_ne.
           ++ right. rewrite lookup_insert_ne in Hnone by done.
              split_and!; [done..|]. exists (S k). rewrite Hshift. simpl.
              split; [lia|done].
Qed.

(** What a successful copy did. *)
Lemma copyfile_ok (cwd : path) (m m' : fsmap) (src dst : string) :
  Fs.copyfile cwd m src dst = inr m' →
  ∃ ps pd data,
    Fs.resolve cwd src = Some ps ∧ Fs.resolve cwd dst = Some pd
    ∧ Fs.get m ps = Some (File data)
    ∧ Fs.get m pd ≠ Some Dir
    ∧ m' = <[pd := File data]> m.
Proof.
  unfold Fs.copyfile, Fs.read, Fs.write.
  destruct (Fs.samefile cwd m src dst); [done|].
  destruct (Fs.resolve cwd src) as [ps|]; [|done].
  destruct (Fs.get m ps) as [[data|]|] eqn:Hsrc; [|done..].
  destruct (Fs.resolve cwd dst) as [pd|]; [|done].
  destruct (Fs.get m pd) as [[old|]|] eqn:Hdst; [| done |].
  - intros [= <-]. exists ps, pd, data. by rewrite Hdst.
  - destruct (Fs.get m (Fs.parent pd)) as [[?|]|]; [done| |done].
    intros [= <-]. exists ps, pd, data. by rewrite Hdst.
Qed.

(** Copying onto a file that already holds the source's bytes changes
    nothing. *)
Lemma copyfile_noop (cwd : path) (m : fsmap) (src dst : string) (ps pd : path)
    (data : string) :
  Fs.resolve cwd src = Some ps → Fs.resolve cwd dst = Some pd →
  ps ≠ pd →
  Fs.get m ps = Some (File data) → Fs.get m pd = Some (File data) →
  Fs.copyfile cwd m src dst = inr m.
Proof.
  intros Hs Hd Hne Hsrc Hdst.
  assert (pd ≠ []) by (intros ->; done).
  unfold Fs.copyfile, Fs.samefile, Fs.read, Fs.write. rewrite Hs, Hd.
  rewrite bool_decide_eq_false_2 by done. cbn [andb].
  rewrite Hsrc, Hdst. rewrite get_nonroot in Hdst by done.
  by rewrite insert_id.
Qed.

(** ** Staging twice

    Staging writes below the destination root [R] and reads outside it.
    [fut m m1] says that [m1] may follow [m] in a staging run: nothing
    outside [R] differs, directories are still directories, and a staged
    file that holds the bytes of its source still does. *)

Section Replay.

Context (cwd R : path).

Definition outside (p : path) : Prop := ¬ R `prefix_of` p.

Record fut (m m1 : fsmap) : Prop := Fut {
  fut_outside : ∀ p : path, outside p → m1 !! p = m !! p;
  fut_dirs : ∀ p : path, Fs.get m p = Some Dir → Fs.get m1 p = Some Dir;
  fut_synced : ∀ (rel : path) (data : string),
    outside (cwd ++ rel) →
    Fs.get m (cwd ++ rel) = Some (File data) →
    Fs.get m (R ++ rel) = Some (File data) →
    Fs.get m1 (R ++ rel) = Some (File data)
}.

Lemma fut_get (m m1 : fsmap) (p : path) :
  fut m m1 → outside p → Fs.get m1 p = Fs.get m p.
Proof.
  intros Hfut Hp. destruct p as [|c p]; [done|]. cbn [Fs.get].
  by apply fut_outside.
Qed.

Lemma fut_refl (m : fsmap) : fut m m.
Proof. by split. Qed.

Lemma fut_trans (m m1 m2 : fsmap) : fut m m1 → fut m1 m2 → fut m m2.
Proof.
  intros H1 H2. split.
  - intros p Hp. by rewrite (fut_outside _ _ H2), (fut_outside _ _ H1).
  - intros p Hp. by apply (fut_dirs _ _ H2), (fut_dirs _ _ H1).
  - intros rel data Hrel Hsrc Hdst.
    apply (fut_synced _ _ H2); [done| |].
    + by rewrite (fut_get _ _ _ H1).
    + by apply (fut_synced _ _ H1).
Qed.

(** New entries below [R], at places that were empty, are a future. *)
Lemma fut_extend (m m' : fsmap) :
  (∀ p : path, m' !! p = m !! p ∨ (m !! p = None ∧ R `prefix_of` p)) →
  fut m m'.
Proof.
  intros Hext.
  assert (∀ (p : path) (x : node), Fs.get m p = Some x → Fs.get m' p = Some x) as Hkeep.
  { intros [|c p] x; [done|]. cbn [Fs.get].
    destruct (Hext (c :: p)) as [->|[Hnone _]]; [done|]. by rewrite Hnone. }
  split.
  - intros p Hp. by destruct (Hext p) as [?|[_ ?]].
  - intros p. apply Hkeep.
  - intros rel data _ _. apply Hkeep.
Qed.

(** Staging one file is a future. *)
Lemma fut_write (m : fsmap) (rel : path) (data : string) :
  outside (cwd ++ rel) →
  Fs.get m (cwd ++ rel) = Some (File data) →
  Fs.get m (R ++ rel) ≠ Some Dir →
  fut m (<[R ++ rel := File data]> m).
Proof.
  intros Hout Hsrc Hdst.
  assert (R ++ rel ≠ []) as Hne by (intros Hnil; by rewrite Hnil in Hdst).
  split.
  - intros p Hp. apply lookup_insert_ne. intros <-. apply Hp. by apply prefix_app_r.
  - intros p Hp. rewrite get_insert by done.
    case_decide as Heq; [subst p; by destruct Hdst|done].
  - intros rel' data' Hout' Hsrc' Hdst'. rewrite get_insert by done.
    case_decide as Heq; [|done].
    apply app_inv_head in Heq as <-. congruence.
Qed.

Lemma take_root (q : list string) (k : nat) :
  take k (R ++ q) `prefix_of` R ∨ R `prefix_of` take k (R ++ q).
Proof.
  destruct (decide (k ≤ length R)).
  - left. rewrite take_app_le by done. apply prefix_take.
  - right. rewrite take_app_ge by lia. by apply prefix_app_r.
Qed.

(** Making directories below [R], when the way down to [R] is there. *)
Lemma fut_mkdirs (s : string) (m m' : fsmap) (q : list string) :
  (∀ p : path, p `prefix_of` R → Fs.get m p = Some Dir) →
  Fs.mkdirs s m [] (R ++ q) = inr m' →
  fut m m'.
Proof.
  intros Hroot [_ Hdiff]%mkdirs_ok. apply fut_extend. intros p.
  destruct (Hdiff p) as [?|(Hnone & _ & k & Hk & ->)]; [by left|].
  right. split; [done|]. cbn [app] in *.
  destruct (take_root q k) as [Hin|?]; [|done].
  apply Hroot in Hin. rewrite get_nonroot, Hnone in Hin; [done|].
  destruct k; [lia|]. destruct (R ++ q); [simpl in Hk; lia|done].
Qed.

(** The listing of a directory depends on its entries only. *)
Lemma children_ext (m m1 : fsmap) (d : path) :
  (∀ k : path, k ≠ [] → Fs.parent k = d → m1 !! k = m !! k) →
  Fs.children m1 d = Fs.children m d.
Proof.
  intros Hsame. unfold Fs.children. f_equal. f_equal.
  apply map_filter_strong_ext_1. intros k x. unfold Fs.is_child. cbn.
  split; intros [[Hk Hd] Hx]; (split; [done|]);
    [rewrite <- Hsame by done|rewrite Hsame by done]; done.
Qed.

Lemma child_of_parent (k d : path) :
  k ≠ [] → Fs.parent k = d → ∃ n, k = d ++ [n] ∧ last k = Some n.
Proof.
  intros Hk <-. destruct (app_removelast_last "" Hk) as [].
  exists (List.last k ""). unfold Fs.parent.
  rewrite <- app_removelast_last by done. split; [done|].
  rewrite (app_removelast_last "" Hk) at 1. apply last_snoc.
Qed.

Lemma elem_of_children (m : fsmap) (d : path) (n : string) :
  n ∈ Fs.children m d → ∃ k, is_Some (m !! k) ∧ k = d ++ [n] ∧ last k = Some n.
Proof.
  unfold Fs.children. intros ([k x] & -> & Hin)%list_elem_of_fmap.
  apply elem_of_map_to_list in Hin.
  apply map_lookup_filter_Some in Hin as [Hx [Hk Hd]]. cbn in *.
  destruct (child_of_parent k d Hk Hd) as (n & -> & Hlast).
  exists (d ++ [n]). rewrite Hlast. by split_and!.
Qed.

End Replay.

(** A computation is [replayable] when, from any world that may follow
    the initial tree [m0], it leads to a future of that world, and running
    it again later finds its work done: in every future of its final world
    it returns the same value and leaves the tree alone; if it raised, it
    raises the same again on the tree it left. *)

Section Rerun.

Context (cwd R : path) (m0 : fsmap).

Hypothesis root_dirs : ∀ p : path, p `prefix_of` R → Fs.get m0 p = Some Dir.

Hypothesis names_ok : ∀ (k : path) (n : string),
  outside R k → is_Some (m0 !! k) → last k = Some n → Fs.valid_name n.

Local Abbreviation fut := (fut cwd R).

Definition replayable {A : Type} (Q : A → Prop) (c : M A) : Prop :=
  ∀ w, fut m0 (fs w) → ∀ r w', c w = (r, w') →
    fut (fs w) (fs w') ∧
    match r with
    | inr x =>
        Q x ∧ ∀ w1, fut (fs w') (fs w1) → ∃ w1', c w1 = (inr x, w1') ∧ fs w1' = fs w1
    | inl e =>
        ∀ w1, fs w1 = fs w' → ∃ w1', c w1 = (inl e, w1') ∧ fs w1' = fs w1
    end.

Lemma replay_ret {A : Type} (Q : A → Prop) (x : A) : Q x → replayable Q (mret x).
Proof.
  intros HQ w _ r w' [= <- <-]. split; [apply fut_refl|].
  split; [done|]. intros w1 _. by exists w1.
Qed.

Lemma replay_raise {A : Type} (Q : A → Prop) (e : exn) : replayable Q (raise e).
Proof.
  intros w _ r w' [= <- <-]. split; [apply fut_refl|].
  intros w1 _. by exists w1.
Qed.

Lemma replay_print (line : string) : replayable (λ _, True) (print line).
Proof.
  intros w _ r w' [= <- <-]. split; [apply fut_refl|].
  split; [done|]. intros w1 _. by eexists.
Qed.

Lemma replay_bind {A B : Type} (Q : A → Prop) (Q' : B → Prop) (m : M A) (k : A → M B) :
  replayable Q m → (∀ x, Q x → replayable Q' (k x)) → replayable Q' (m ≫= k).
Proof.
  intros Hm Hk w Hw r w' Hrun. rewrite bind_run in Hrun.
  destruct (m w) as [[e|x] wm] eqn:Hmw.
  - injection Hrun as <- <-. destruct (Hm _ Hw _ _ Hmw) as [Hfut Hagain].
    split; [done|]. intros w1 Hfs.
    destruct (Hagain w1 Hfs) as (w1' & Hrun1 & Hfs1).
    exists w1'. by rewrite bind_run, Hrun1.
  - destruct (Hm _ Hw _ _ Hmw) as (Hfut & HQ & Hagain).
    assert (fut m0 (fs wm)) as Hwm by by eapply fut_trans.
    destruct (Hk x HQ _ Hwm _ _ Hrun) as [Hfut' Hagain'].
    split; [by eapply fut_trans|].
    destruct r as [e|y].
    + intros w1 Hfs.
      destruct (Hagain w1) as (w1a & Hrun1 & Hfs1); [by rewrite Hfs|].
      destruct (Hagain' w1a) as (w1b & Hrun2 & Hfs2); [congruence|].
      exists w1b. rewrite bind_run, Hrun1. split; [done|congruence].
    + destruct Hagain' as [HQ' Hagain']. split; [done|].
      intros w1 Hw1.
      destruct (Hagain w1) as (w1a & Hrun1 & Hfs1); [by eapply fut_trans|].
      destruct (Hagain' w1a) as (w1b & Hrun2 & Hfs2); [by rewrite Hfs1|].
      exists w1b. rewrite bind_run, Hrun1. split; [done|congruence].
Qed.

Lemma replay_for {A : Type} (l : list A) (body : A → M unit) :
  Forall (λ x, replayable (λ _, True) (body x)) l →
  replayable (λ _, True) (for_ l body).
Proof.
  induction 1 as [|x l Hx _ IH]; cbn [for_].
  - by apply replay_ret.
  - eapply replay_bind; [exact Hx|done].
Qed.

(** The way down to [R] stays in place in every world that may follow. *)
Lemma root_dirs_later (m : fsmap) (p : path) :
  fut m0 m → p `prefix_of` R → Fs.get m p = Some Dir.
Proof. intros Hm Hp. by apply (fut_dirs _ _ _ _ Hm), root_dirs. Qed.

Lemma replay_isdir (s : string) (p : path) :
  Fs.resolve cwd s = Some p → outside R p →
  replayable (λ _, True) (isdir cwd s).
Proof.
  intros Hs Hp w _ r w' [= <- <-]. split; [apply fut_refl|].
  split; [done|]. intros w1 Hw1. exists w1. split; [|done].
  unfold isdir, Fs.isdir. rewrite Hs. by rewrite (fut_get _ _ _ _ _ Hw1).
Qed.

Lemma outside_parent (p : path) : outside R p → outside R (Fs.parent p).
Proof.
  intros Hp Hpre. apply Hp. etrans; [exact Hpre|].
  unfold Fs.parent. destruct (decide (p = [])) as [->|Hne]; [done|].
  rewrite (app_removelast_last "" Hne) at 2. by apply prefix_app_r.
Qed.

Lemma replay_listdir (s : string) (p : path) :
  Fs.resolve cwd s = Some p → outside R p → (∀ n, outside R (p ++ [n])) →
  replayable (Forall Fs.valid_name) (listdir cwd s).
Proof.
  intros Hs Hp Hchildren w Hw r w' Hrun.
  assert (∀ w1, fut (fs w) (fs w1) → listdir cwd s w1 = (r, w1)) as Hsame.
  { intros w1 Hw1. unfold listdir, Fs.listdir in Hrun |- *. rewrite Hs in Hrun |- *.
    rewrite (fut_get _ _ _ _ _ Hw1) by done.
    destruct (Fs.get (fs w) p) as [[data|]|] eqn:Hget.
    - by injection Hrun as <- _.
    - injection Hrun as <- _. f_equal. f_equal. apply children_ext. intros k Hk Hparent.
      destruct (child_of_parent k p Hk Hparent) as (n & -> & _).
      by apply (fut_outside _ _ _ _ Hw1).
    - injection Hrun as <- _. unfold Fs.missing.
      by rewrite (fut_get _ _ _ _ _ Hw1) by by apply outside_parent. }
  assert (w' = w) as ->.
  { unfold listdir in Hrun. destruct (Fs.listdir cwd (fs w) s); by injection Hrun. }
  split; [apply fut_refl|].
  destruct r as [e|names].
  - intros w1 Hfs. exists w1. split; [|done]. apply Hsame. rewrite Hfs. apply fut_refl.
  - split; [|intros w1 Hw1; exists w1; by split; [apply Hsame|]].
    unfold listdir, Fs.listdir in Hrun. rewrite Hs in Hrun.
    destruct (Fs.get (fs w) p) as [[data|]|]; [done| |done].
    injection Hrun as <-. apply Forall_forall. intros n Hn.
    apply elem_of_children in Hn as (k & Hk & -> & Hlast).
    apply (names_ok (p ++ [n])); [done| |done].
    by rewrite <- (fut_outside _ _ _ _ Hw).
Qed.

Lemma replay_makedirs (s : string) (q : list string) :
  Fs.resolve cwd s = Some (R ++ q) →
  replayable (λ _, True) (makedirs cwd s).
Proof.
  intros Hs w Hw r w' Hrun.
  unfold makedirs, on_fs, Fs.makedirs in Hrun. rewrite Hs in Hrun.
  destruct (Fs.mkdirs s (fs w) [] (R ++ q)) as [e|m'] eqn:Hmk; injection Hrun as <- <-.
  - split; [apply fut_refl|]. intros w1 Hfs. exists w1. split; [|done].
    unfold makedirs, on_fs, Fs.makedirs. by rewrite Hs, Hfs, Hmk.
  - split; [|split; [done|]].
    + eapply fut_mkdirs; [|exact Hmk]. intros p Hp. by apply root_dirs_later.
    + intros w1 Hw1. exists (World (fs w1) (out w1)). split; [|done].
      unfold makedirs, on_fs, Fs.makedirs. rewrite Hs.
      rewrite mkdirs_noop; [done|].
      intros k Hk. apply (fut_dirs _ _ _ _ Hw1).
      by apply (mkdirs_ok _ _ _ _ _ Hmk).
Qed.

(** Copying a source outside [R] to its mirror image below [R]. *)
Lemma replay_copyfile (src dst : string) (rel : path) :
  Fs.resolve cwd src = Some (cwd ++ rel) →
  Fs.resolve cwd dst = Some (R ++ rel) →
  outside R (cwd ++ rel) →
  replayable (λ _, True) (copyfile cwd src dst).
Proof.
  intros Hsrc Hdst Hout w Hw r w' Hrun.
  unfold copyfile, on_fs in Hrun.
  destruct (Fs.copyfile cwd (fs w) src dst) as [e|m'] eqn:Hcopy; injection Hrun as <- <-.
  - split; [apply fut_refl|]. intros w1 Hfs. exists w1. split; [|done].
    unfold copyfile, on_fs. by rewrite Hfs, Hcopy.
  - apply copyfile_ok in Hcopy as (ps & pd & data & Hps & Hpd & Hread & Hnodir & ->).
    rewrite Hsrc in Hps. rewrite Hdst in Hpd. injection Hps as <-. injection Hpd as <-.
    assert (R ++ rel ≠ []) as Hne by (intros Hnil; by rewrite Hnil in Hnodir).
    assert (R ++ rel ≠ cwd ++ rel) as Hdiff.
    { intros Heq. apply Hout. rewrite <- Heq. by apply prefix_app_r. }
    split; [by apply fut_write|]. split; [done|].
    intros w1 Hw1. exists (World (fs w1) (out w1)). split; [|done].
    unfold copyfile, on_fs. cbn [fs] in Hw1.
    rewrite (copyfile_noop cwd (fs w1) src dst (cwd ++ rel) (R ++ rel) data); [done..| |].
    + rewrite (fut_get _ _ _ _ _ Hw1) by done.
      rewrite get_insert by done. by rewrite decide_False.
    + apply (fut_synced _ _ _ _ Hw1); [done| |].
      * rewrite get_insert by done. by rewrite decide_False.
      * rewrite get_insert by done. by rewrite decide_True.
Qed.

End Rerun.

(** ** The staging steps *)

(** A relative path string without [..]. *)
Definition plain (f : string) : Prop :=
  Str.startswith f "/" = false ∧ f ≠ "" ∧ Forall (λ c, c ≠ "..") (Str.split_slash f).

(** Its components. *)
Definition rel_of (f : string) : path := Fs.walk [] (Str.split_slash f).

Lemma walk_plain_from (acc from : path) (comps : list string) :
  Forall (λ c, c ≠ "..") comps →
  Fs.walk (acc ++ from) comps = acc ++ Fs.walk from comps.
Proof.
  intros Hplain. revert from.
  induction Hplain as [|c comps Hc _ IH]; intros from; [done|].
  unfold Fs.walk in *. cbn [foldl]. unfold Fs.step at 2 4.
  case_bool_decide; [apply IH|].
  rewrite bool_decide_eq_false_2 by done.
  rewrite <- app_assoc. apply IH.
Qed.

Lemma walk_plain (acc : path) (comps : list string) :
  Forall (λ c, c ≠ "..") comps → Fs.walk acc comps = acc ++ Fs.walk [] comps.
Proof.
  intros Hplain. rewrite <- (walk_plain_from acc [] comps Hplain). by rewrite app_nil_r.
Qed.

Lemma resolve_plain (cwd : path) (f : string) :
  plain f → Fs.resolve cwd f = Some (cwd ++ rel_of f).
Proof.
  intros (Hrel & Hne & Hdots). rewrite resolve_nonempty, Hrel by done.
  by rewrite walk_plain.
Qed.

Lemma resolve_join_plain (cwd : path) (a f : string) (pa : path) :
  Fs.resolve cwd a = Some pa → plain f →
  Fs.resolve cwd (OsPath.join a f) = Some (pa ++ rel_of f).
Proof.
  intros Ha (Hrel & Hne & Hdots). rewrite (resolve_join _ _ _ _ Ha Hrel).
  by rewrite walk_plain.
Qed.

Lemma valid_name_plain (n : string) : Fs.valid_name n → plain n ∧ rel_of n = [n].
Proof.
  intros (Hne & Hdot & Hdots & Hslash).
  assert (Str.split_slash n = [n]) as Hsplit by by apply split_slash_plain.
  unfold plain, rel_of. rewrite Hsplit. split_and!; [|done| |].
  - destruct n as [|c n]; [done|]. rewrite contains_slash_cons in Hslash.
    apply orb_false_elim in Hslash as [Hc _].
    unfold Str.startswith. by rewrite prefix_slash.
  - by repeat constructor.
  - unfold Fs.walk. cbn [foldl]. unfold Fs.step.
    rewrite !bool_decide_eq_false_2; [done|done|by intros [?|?]].
Qed.

Lemma files_plain : Forall plain files.
Proof. apply (bool_decide_unpack _). vm_compute. exact I. Qed.

Lemma apart_child (R p : path) (n : string) : apart R p → outside R (p ++ [n]).
Proof.
  intros [Hout Hin] Hpre.
  destruct (prefix_weak_total R p (p ++ [n])) as [?|?]; [done|by apply prefix_app_r|done..].
Qed.

Section Staging.

Context (cwd : path) (resourcedir : string).

(** One round of the loop over the manifest. *)
Definition install_entry (filename : string) : M unit :=
  d ← isdir cwd filename;
  if negb d then copyfile cwd filename (OsPath.join resourcedir filename)
  else
    let subdirname := OsPath.join resourcedir filename in
    makedirs cwd subdirname;;
    subfiles ← listdir cwd filename;
    for_ subfiles (λ subfile,
      copyfile cwd (OsPath.join filename subfile) (OsPath.join subdirname subfile)).

(** [install] past its check of the destination root. *)
Definition install_steps : M unit :=
  print ("Installing to: " +:+ resourcedir);;
  makedirs cwd resourcedir;;
  makedirs cwd (OsPath.join resourcedir "quixe");;
  makedirs cwd (OsPath.join (OsPath.join resourcedir "quixe") "lib");;
  makedirs cwd (OsPath.join (OsPath.join resourcedir "quixe") "media");;
  for_ files install_entry.

Lemma install_run (w : world) :
  install cwd resourcedir w =
  if Fs.isdir cwd (fs w) resourcedir then install_steps w
  else (inl (Exception ("path does not exist: " +:+ resourcedir)), w).
Proof.
  unfold install. rewrite bind_run. unfold isdir.
  by destruct (Fs.isdir cwd (fs w) resourcedir).
Qed.

Context (R : path) (m0 : fsmap).

Hypothesis root_resolves : Fs.resolve cwd resourcedir = Some R.

Hypothesis root_dirs : ∀ p : path, p `prefix_of` R → Fs.get m0 p = Some Dir.

Hypothesis names_ok : ∀ (k : path) (n : string),
  outside R k → is_Some (m0 !! k) → last k = Some n → Fs.valid_name n.

Local Abbreviation replayable := (replayable cwd R m0).

Lemma replay_entry (filename : string) :
  plain filename → apart R (cwd ++ rel_of filename) →
  replayable (λ _, True) (install_entry filename).
Proof.
  intros Hplain Hapart.
  assert (outside R (cwd ++ rel_of filename)) as Hout by apply Hapart.
  pose proof (resolve_plain cwd _ Hplain) as Hsrc.
  pose proof (resolve_join_plain cwd _ _ _ root_resolves Hplain) as Hdst.
  unfold install_entry.
  eapply replay_bind; [by eapply replay_isdir|]. intros d _.
  destruct d; cbn [negb]; [|by eapply replay_copyfile].
  eapply replay_bind; [by eapply replay_makedirs|]. intros _ _.
  eapply replay_bind.
  { eapply replay_listdir; [done..|]. intros n. by apply apart_child. }
  intros subfiles Hnames. apply replay_for.
  eapply Forall_impl; [exact Hnames|]. intros n [Hn Hrel]%valid_name_plain.
  eapply replay_copyfile with (rel := rel_of filename ++ [n]).
  - rewrite (resolve_join_plain cwd _ _ _ Hsrc Hn), Hrel. by rewrite <- app_assoc.
  - rewrite (resolve_join_plain cwd _ _ _ Hdst Hn), Hrel. by rewrite <- app_assoc.
  - rewrite app_assoc. by apply apart_child.
Qed.

Hypothesis files_apart : Forall (λ f, apart R (cwd ++ rel_of f)) files.

Lemma replay_steps : replayable (λ _, True) install_steps.
Proof.
  assert (∀ a pa c, Fs.resolve cwd a = Some pa →
            plain c → Fs.resolve cwd (OsPath.join a c) = Some (pa ++ rel_of c)) as Hjoin
    by (intros; by apply resolve_join_plain).
  assert (plain "quixe" ∧ plain "lib" ∧ plain "media") as (Hq & Hl & Hm).
  { split_and!; apply (bool_decide_unpack _); vm_compute; exact I. }
  unfold install_steps.
  eapply replay_bind; [apply replay_print|]. intros _ _.
  eapply replay_bind.
  { eapply replay_makedirs with (q := []); [exact root_dirs|]. by rewrite app_nil_r. }
  intros _ _.
  eapply replay_bind.
  { eapply replay_makedirs; [exact root_dirs|]. by apply Hjoin. }
  intros _ _.
  eapply replay_bind.
  { eapply replay_makedirs with (q := ["quixe"; "lib"]); [exact root_dirs|].
    rewrite (Hjoin _ (R ++ rel_of "quixe")) by auto. by rewrite <- app_assoc. }
  intros _ _.
  eapply replay_bind.
  { eapply replay_makedirs with (q := ["quixe"; "media"]); [exact root_dirs|].
    rewrite (Hjoin _ (R ++ rel_of "quixe")) by auto. by rewrite <- app_assoc. }
  intros _ _.
  apply replay_for.
  pose proof files_plain as Hplain.
  apply Forall_forall. intros f Hf.
  rewrite Forall_forall in Hplain, files_apart. by apply replay_entry; auto.
Qed.

End Staging.

(** ** Well-formed trees *)

Lemma wf_ancestors (m : fsmap) (R : path) :
  Fs.wf m → Fs.get m R = Some Dir →
  ∀ p : path, p `prefix_of` R → Fs.get m p = Some Dir.
Proof.
  intros Hwf HR p [rest ->]. revert HR.
  induction rest as [|x rest IH] using rev_ind; intros HR.
  - by rewrite app_nil_r in HR.
  - apply IH. rewrite app_assoc in HR.
    rewrite get_nonroot in HR by apply snoc_nonempty.
    apply (map_Forall_lookup_1 _ _ _ _ Hwf) in HR as [Hparent _].
    unfold Fs.parent in Hparent. by rewrite removelast_last in Hparent.
Qed.

Lemma wf_names (m : fsmap) (k : path) (n : string) :
  Fs.wf m → is_Some (m !! k) → last k = Some n → Fs.valid_name n.
Proof.
  intros Hwf [x Hx] Hlast.
  apply (map_Forall_lookup_1 _ _ _ _ Hwf) in Hx as [_ Hname].
  by rewrite Hlast in Hname.
Qed.

(** C10.  On a well-formed tree, with the destination root and the
    manifest entries apart (so that staging does not write into its own
    sources), staging a second time ends as the first time did, returning
    or raising the same, and leaves the tree exactly as the first run
    left it. *)
Theorem install_idempotent (cwd : path) (resourcedir : string) (w : world) :
  Fs.wf (fs w) →
  staging_apart cwd resourcedir →
  let first := install cwd resourcedir w in
  let second := install cwd resourcedir first.2 in
  second.1 = first.1 ∧ fs second.2 = fs first.2.
Proof.
  intros Hwf Hapart first second. subst first second.
  rewrite (install_run cwd resourcedir w).
  destruct (Fs.isdir cwd (fs w) resourcedir) eqn:Hdir.
  2: { cbn [snd]. by rewrite install_run, Hdir. }
  unfold Fs.isdir in Hdir. unfold staging_apart in Hapart.
  destruct (Fs.resolve cwd resourcedir) as [R|] eqn:HR; [|done].
  apply bool_decide_eq_true in Hdir.
  assert (Forall (λ f, apart R (cwd ++ rel_of f)) files) as Hfiles.
  { pose proof files_plain as Hplain. rewrite Forall_forall in Hplain, Hapart.
    apply Forall_forall. intros f Hf. specialize (Hapart f Hf).
    by rewrite (resolve_plain cwd f (Hplain f Hf)) in Hapart. }
  pose proof (replay_steps cwd resourcedir R (fs w) HR
                (wf_ancestors _ _ Hwf Hdir)
                (λ k n _ Hk Hn, wf_names _ k n Hwf Hk Hn) Hfiles) as Hreplay.
  destruct (install_steps cwd resourcedir w) as [r w'] eqn:Hrun.
  destruct (Hreplay w (fut_refl _ _ _) r w' Hrun) as [Hfut Hagain].
  cbn [fst snd]. rewrite install_run.
  assert (Fs.isdir cwd (fs w') resourcedir = true) as ->.
  { unfold Fs.isdir. rewrite HR. apply bool_decide_eq_true.
    by apply (fut_dirs _ _ _ _ Hfut). }
  destruct r as [e|[]].
  - destruct (Hagain w' eq_refl) as (w2 & -> & Hfs). done.
  - destruct Hagain as [_ Hagain].
    destruct (Hagain w' (fut_refl _ _ _)) as (w2 & -> & Hfs). done.
Qed.

Lemma install_idempotent_witness :
  let first := install Sample.cwd "tempapp" Sample.ready in
  let second := install Sample.cwd "tempapp" first.2 in
  first.1 = inr ()
  ∧ Fs.get (fs first.2) ["work"; "tempapp"; "font"; "bold.ttf"] = Some (File "bold glyphs")
  ∧ second.1 = first.1 ∧ fs second.2 = fs first.2.
Proof.
  split; [vm_compute; reflexivity|]. split; [vm_compute; reflexivity|].
  apply install_idempotent.
  - apply (bool_decide_unpack _). vm_compute. exact I.
  - apply (bool_decide_unpack _). vm_compute. exact I.
Defined.

(** The destination root the script uses is apart from every manifest
    entry, whatever the working directory. *)
Lemma tempapp_apart (cwd : path) : staging_apart cwd "tempapp".
Proof.
  unfold staging_apart.
  rewrite (resolve_plain cwd "tempapp")
    by (apply (bool_decide_unpack _); vm_compute; exact I).
  pose proof files_plain as Hplain. rewrite Forall_forall in Hplain.
  apply Forall_forall. intros f Hf. rewrite (resolve_plain cwd f) by auto.
  assert (Forall (λ f, apart (rel_of "tempapp") (rel_of f)) files) as Hrel
    by (apply (bool_decide_unpack _); vm_compute; exact I).
  rewrite Forall_forall in Hrel. destruct (Hrel f Hf) as [H1 H2].
  split; intros Hpre%prefix_app_inv; auto.
Qed.

(** * The disk-image branch *)

Lemma contains_append_r (sub a b : string) :
  Str.contains sub b = true → Str.contains sub (a +:+ b) = true.
Proof.
  intros Hb. induction a as [|c a IH]; [done|].
  rewrite append_cons. cbn [Str.contains]. rewrite IH. apply orb_true_r.
Qed.

(** For every product, a platform identifier with "darwin" in it takes
    the disk-image path. *)
Lemma makezip_darwin_platform (shell : string → fsmap → fsmap)
    (product_name product_version dir : string) (unwrapped : bool) (w : world) :
  let prefix := product_name +:+ "-" in
  let val := (OsPath.split dir).2 in
  Str.startswith val prefix = true →
  Str.contains "darwin" (Str.drop (String.length prefix) val) = true →
  ∃ line cmd,
    Str.startswith cmd "rm -f dist/" = true
    ∧ makezip shell (PStr product_name) (PStr product_version) dir unwrapped w
      = (inr (), World (shell cmd (fs w)) (out w ++ [Print line; Call cmd])).
Proof.
  intros prefix val Hprefix Hdarwin. unfold makezip.
  cbn [add_str str_add]. rewrite bind_run. cbn [mret M_ret].
  fold prefix val. rewrite Hprefix. cbn [negb]. rewrite bind_run. cbn [mret M_ret].
  rewrite (contains_append_r "darwin" (prefix +:+ product_version)
             ("-" +:+ Str.drop (String.length prefix) val))
    by by apply (contains_append_r "darwin" "-").
  eexists _, _. split; [|apply print_call_run].
  unfold Str.startswith. apply prefix_append.
Qed.

(** * More on platform selection *)

Lemma matched_exists (args : list string) (pack : string) :
  matched args pack ↔ ∃ arg, arg ∈ args ∧ Str.contains arg pack = true.
Proof.
  unfold matched. rewrite existsb_exists.
  split; intros (arg & Harg & Hin); exists arg; by rewrite ?list_elem_of_In in *.
Qed.

(** A platform is selected exactly when it is one of the five and either
    no filter was given or some filter string occurs in it. *)
Theorem select_packages_member (args : list string) (pack : string) :
  pack ∈ select_packages args
  ↔ pack ∈ all_packages
    ∧ (args = [] ∨ ∃ arg, arg ∈ args ∧ Str.contains arg pack = true).
Proof.
  destruct (decide (args = [])) as [->|Hne].
  - split; [intros Hin; split; [done|by left]|by intros [? _]].
  - rewrite (select_packages_filter _ Hne), list_elem_of_filter, matched_exists.
    split; [intros [? ?]; split; [done|by right]|].
    intros [? [?|?]]; done.
Qed.

(** The selection is empty exactly when filters were given and none of
    them occurs in any platform. *)
Theorem select_packages_empty (args : list string) :
  select_packages args = []
  ↔ args ≠ [] ∧ Forall (λ pack, ¬ matched args pack) all_packages.
Proof.
  split.
  - intros Hnil. destruct (decide (args = [])) as [->|Hne]; [done|].
    split; [done|]. apply Forall_forall. intros pack Hpack Hmatch.
    assert (pack ∈ select_packages args) as Hin
      by (rewrite select_packages_filter by done; by apply list_elem_of_filter).
    rewrite Hnil in Hin. by apply not_elem_of_nil in Hin.
  - intros [Hne Hnone]. rewrite select_packages_filter by done. by apply filter_none.
Qed.

(** Only the set of filter strings counts: their order and repetitions
    do not change the selection. *)
Theorem select_packages_same_filters (args args' : list string) :
  (∀ arg, arg ∈ args ↔ arg ∈ args') →
  select_packages args = select_packages args'.
Proof.
  intros Hsame.
  destruct (decide (args = [])) as [->|Hne].
  - destruct args' as [|a args']; [done|].
    destruct (Hsame a) as [_ Hin]. specialize (Hin ltac:(left)).
    by apply not_elem_of_nil in Hin.
  - assert (args' ≠ []) as Hne'.
    { intros ->. destruct args as [|a args]; [done|].
      destruct (Hsame a) as [Hin _]. specialize (Hin ltac:(left)).
      by apply not_elem_of_nil in Hin. }
    rewrite !select_packages_filter by done.
    apply list_filter_iff. intros pack. rewrite !matched_exists.
    split; intros (arg & Hin & Hc); exists arg; (split; [by apply Hsame|done]).
Qed.

Lemma select_packages_same_filters_witness :
  select_packages ["x64"; "win32"; "x64"] = select_packages ["win32"; "x64"].
Proof.
  apply select_packages_same_filters. intros arg.
  rewrite !elem_of_cons, !elem_of_nil. tauto.
Defined.

Lemma contains_empty (s : string) : Str.contains "" s = true.
Proof. by destruct s. Qed.

(** An empty filter string occurs in every identifier: with it among the
    arguments every platform is selected. *)
Theorem select_packages_empty_string (args : list string) :
  "" ∈ args → select_packages args = all_packages.
Proof.
  intros Hin.
  assert (args ≠ []) as Hne by (intros ->; by apply not_elem_of_nil in Hin).
  rewrite select_packages_filter by done. apply filter_fixpoint.
  apply Forall_forall. intros pack _. apply matched_exists.
  exists "". split; [done|apply contains_empty].
Qed.

Lemma select_packages_empty_string_witness :
  select_packages ["linux"; ""] = all_packages.
Proof. apply select_packages_empty_string. apply (bool_decide_unpack _). vm_compute. exact I. Defined.

Lemma filter_sublist_impl {A : Type} (P Q : A → Prop)
    `{!∀ x, Decision (P x)} `{!∀ x, Decision (Q x)} (l : list A) :
  (∀ x, P x → Q x) → filter P l `sublist_of` filter Q l.
Proof.
  intros HPQ. induction l as [|x l IH]; [done|].
  rewrite !filter_cons. destruct (decide (P x)) as [HP|HP].
  - rewrite decide_True by auto. by constructor.
  - destruct (decide (Q x)); [by constructor|done].
Qed.

(** Filters add up: giving more filter strings never drops a platform
    that was selected, and keeps the order. *)
Theorem select_packages_more_filters (args more : list string) :
  args ≠ [] →
  select_packages args `sublist_of` select_packages (args ++ more).
Proof.
  intros Hne.
  assert (args ++ more ≠ []) as Hne' by (by destruct args).
  rewrite !select_packages_filter by done.
  apply filter_sublist_impl. intros pack. rewrite !matched_exists.
  intros (arg & Hin & Hc). exists arg. split; [|done].
  apply elem_of_app. by left.
Qed.

Lemma select_packages_more_filters_witness :
  select_packages ["win32"] `sublist_of` select_packages (["win32"] ++ ["darwin"]).
Proof. by apply select_packages_more_filters. Defined.

(** * The exceptions a run can end with *)

(** The exceptions of the operating system calls. *)
Definition is_os_error (e : exn) : Prop :=
  match e with
  | FileNotFoundError _ | IsADirectoryError _ | NotADirectoryError _
  | FileExistsError _ | SameFileError _ _ => True
  | _ => False
  end.

(** Every exception a computation can raise satisfies [E]. *)
Definition raises {A : Type} (E : exn → Prop) (c : M A) : Prop :=
  ∀ w e w', c w = (inl e, w') → E e.

Section Raises.

Context {E : exn → Prop}.

Lemma raises_ret {A : Type} (x : A) : raises E (mret x).
Proof. by intros w e w'. Qed.

Lemma raises_raise {A : Type} (e : exn) : E e → raises E (raise (A:=A) e).
Proof. by intros He w e' w' [= <- _]. Qed.

Lemma raises_print (line : string) : raises E (print line).
Proof. by intros w e w'. Qed.

Lemma raises_bind {A B : Type} (m : M A) (k : A → M B) :
  raises E m → (∀ x, raises E (k x)) → raises E (m ≫= k).
Proof.
  intros Hm Hk w e w'. rewrite bind_run.
  destruct (m w) as [[e1|x] w1] eqn:Hrun.
  - intros [= <- _]. by eapply Hm.
  - apply Hk.
Qed.

Lemma raises_for {A : Type} (l : list A) (body : A → M unit) :
  (∀ x, x ∈ l → raises E (body x)) → raises E (for_ l body).
Proof.
  induction l as [|x l IH]; intros Hbody; cbn [for_].
  - apply raises_ret.
  - apply raises_bind; [apply Hbody; left|].
    intros _. apply IH. intros y Hy. apply Hbody. by right.
Qed.

Lemma raises_on_fs (op : fsmap → result fsmap) :
  (∀ m e, op m = inl e → E e) → raises E (on_fs op).
Proof.
  intros Hop w e w'. unfold on_fs.
  destruct (op (fs w)) as [e1|m] eqn:Hrun; [|done].
  intros [= <- _]. by eapply Hop.
Qed.

End Raises.

Lemma raises_weaken {A : Type} (E E' : exn → Prop) (c : M A) :
  (∀ e, E e → E' e) → raises E c → raises E' c.
Proof. intros HE Hc w e w' Hrun. eapply HE, Hc, Hrun. Qed.

Lemma missing_os_error (m : fsmap) (s : string) (p : path) : is_os_error (Fs.missing m s p).
Proof. unfold Fs.missing. by repeat case_match. Qed.

Lemma read_os_error (cwd : path) (m : fsmap) (s : string) (e : exn) :
  Fs.read cwd m s = inl e → is_os_error e.
Proof.
  unfold Fs.read. repeat case_match; intros [= <-]; try done.
  apply missing_os_error.
Qed.

Lemma write_os_error (cwd : path) (m : fsmap) (s data : string) (e : exn) :
  Fs.write cwd m s data = inl e → is_os_error e.
Proof. unfold Fs.write. by repeat case_match; intros [= <-]. Qed.

Lemma copyfile_os_error (cwd : path) (m : fsmap) (src dst : string) (e : exn) :
  Fs.copyfile cwd m src dst = inl e → is_os_error e.
Proof.
  unfold Fs.copyfile. destruct (Fs.samefile cwd m src dst); [by intros [= <-]|].
  destruct (Fs.read cwd m src) as [e1|data] eqn:Hread.
  - intros [= <-]. by eapply read_os_error.
  - apply write_os_error.
Qed.

Lemma mkdirs_os_error (s : string) (m : fsmap) (pre : path) (rest : list string) (e : exn) :
  Fs.mkdirs s m pre rest = inl e → is_os_error e.
Proof.
  revert m pre. induction rest as [|c rest IH]; intros m pre; [done|].
  cbn [Fs.mkdirs]. destruct (Fs.get m (pre ++ [c])) as [[data|]|]; [|apply IH..].
  intros [= <-]. by destruct rest.
Qed.

Lemma makedirs_os_error (cwd : path) (m : fsmap) (s : string) (e : exn) :
  Fs.makedirs cwd m s = inl e → is_os_error e.
Proof.
  unfold Fs.makedirs. destruct (Fs.resolve cwd s); [apply mkdirs_os_error|].
  by intros [= <-].
Qed.

Lemma unlink_os_error (cwd : path) (m : fsmap) (s : string) (e : exn) :
  Fs.unlink cwd m s = inl e → is_os_error e.
Proof.
  unfold Fs.unlink. repeat case_match; intros [= <-]; try done.
  apply missing_os_error.
Qed.

Lemma listdir_os_error (cwd : path) (m : fsmap) (s : string) (e : exn) :
  Fs.listdir cwd m s = inl e → is_os_error e.
Proof.
  unfold Fs.listdir. repeat case_match; intros [= <-]; try done.
  apply missing_os_error.
Qed.

Lemma makedirs_isdir (cwd : path) (m m' : fsmap) (s : string) :
  Fs.makedirs cwd m s = inr m' → Fs.isdir cwd m' s = true.
Proof.
  unfold Fs.makedirs, Fs.isdir. destruct (Fs.resolve cwd s) as [p|]; [|done].
  intros [Hdirs _]%mkdirs_ok. apply bool_decide_eq_true.
  destruct (decide (p = [])) as [->|Hne]; [done|].
  specialize (Hdirs (length p)). rewrite firstn_all in Hdirs. apply Hdirs.
  destruct p; [done|simpl; lia].
Qed.

Section ScriptRaises.

Context (cwd : path) (shell : string → fsmap → fsmap) (json_loads : string → option pydoc).

Lemma raises_makedirs (s : string) : raises is_os_error (makedirs cwd s).
Proof. apply raises_on_fs. intros m e. apply makedirs_os_error. Qed.

Lemma raises_copyfile (src dst : string) : raises is_os_error (copyfile cwd src dst).
Proof. apply raises_on_fs. intros m e. apply copyfile_os_error. Qed.

Lemma raises_unlink (s : string) : raises is_os_error (unlink cwd s).
Proof. apply raises_on_fs. intros m e. apply unlink_os_error. Qed.

Lemma raises_isdir (E : exn → Prop) (s : string) : raises E (isdir cwd s).
Proof. by intros w e w'. Qed.

Lemma raises_call (E : exn → Prop) (cmd : string) : raises E (subprocess_call shell cmd).
Proof. by intros w e w'. Qed.

Lemma raises_listdir (s : string) : raises is_os_error (listdir cwd s).
Proof.
  intros w e w'. unfold listdir.
  destruct (Fs.listdir cwd (fs w) s) as [e1|names] eqn:Hrun; [|done].
  intros [= <- _]. by eapply listdir_os_error.
Qed.

Lemma raises_install_steps (resourcedir : string) :
  raises is_os_error (install_steps cwd resourcedir).
Proof.
  unfold install_steps.
  repeat (apply raises_bind; [first [apply raises_print|apply raises_makedirs]|intros _]).
  apply raises_for. intros filename _. unfold install_entry.
  apply raises_bind; [apply raises_isdir|]. intros d.
  destruct d; cbn [negb]; [|apply raises_copyfile].
  apply raises_bind; [apply raises_makedirs|]. intros _.
  apply raises_bind; [apply raises_listdir|]. intros subfiles.
  apply raises_for. intros subfile _. apply raises_copyfile.
Qed.

Lemma raises_builddir (dir pack : string) : raises is_os_error (builddir cwd shell dir pack).
Proof.
  unfold builddir.
  apply raises_bind; [apply raises_call|]. intros _.
  apply raises_bind; [|intros _; apply raises_unlink].
  apply raises_for. intros filename _. apply raises_copyfile.
Qed.

(** The archiver raises for two reasons only. *)
Lemma raises_makezip (product_name product_version : pyval) (dir : string)
    (unwrapped : bool) :
  raises (λ e, e = TypeError ∨ e = Exception "path does not have the prefix")
         (makezip shell product_name product_version dir unwrapped).
Proof.
  intros w e w'. unfold makezip.
  destruct product_name as [name|]; [|intros [= <- _]; by left].
  cbn [add_str]. rewrite bind_run. cbn [mret M_ret].
  destruct (Str.startswith _ _); cbn [negb]; [|intros [= <- _]; by right].
  destruct product_version as [version|]; [|intros [= <- _]; by left].
  cbn [str_add]. rewrite bind_run. cbn [mret M_ret].
  destruct (Str.contains "darwin" _); [|destruct unwrapped];
    by rewrite print_call_run.
Qed.

(** Staging right after [makedirs] of the same root: the root is there,
    so only operating-system errors are left. *)
Lemma raises_makedirs_install (s : string) (k : M unit) (E : exn → Prop) :
  (∀ e, is_os_error e → E e) → raises E k →
  raises E (makedirs cwd s;; install cwd s;; k).
Proof.
  intros HE Hk w e w'. rewrite bind_run.
  destruct (makedirs cwd s w) as [[e1|[]] w1] eqn:Hmk.
  - intros [= <- _]. eapply HE, raises_makedirs, Hmk.
  - rewrite bind_run, install_run.
    assert (Fs.isdir cwd (fs w1) s = true) as ->.
    { unfold makedirs, on_fs in Hmk.
      destruct (Fs.makedirs cwd (fs w) s) as [?|m'] eqn:Hfs; [done|].
      injection Hmk as <-. by eapply makedirs_isdir. }
    destruct (install_steps cwd s w1) as [[e1|[]] w2] eqn:Hsteps.
    + intros [= <- _]. eapply HE, raises_install_steps, Hsteps.
    + apply Hk.
Qed.

(** Past the selection, a run raises for the file system or in the
    archiver. *)
Lemma raises_run_packages (opts : Opts.t) (args : list string)
    (product_name product_version : pyval) :
  select_packages args ≠ [] →
  raises (λ e, is_os_error e ∨ e = TypeError
               ∨ e = Exception "path does not have the prefix")
         (run_packages cwd shell opts args product_name product_version).
Proof.
  intros Hsel. unfold run_packages.
  destruct (select_packages args) as [|pack packages] eqn:Hpacks; [done|].
  apply raises_makedirs_install; [by left|].
  apply raises_bind.
  { eapply raises_weaken; [|apply raises_makedirs]. by left. }
  intros _. apply raises_bind; [|intros _].
  - case_match; [|apply raises_ret].
    apply raises_for. intros p _.
    eapply raises_weaken; [|apply raises_builddir]. by left.
  - case_match; [|apply raises_ret].
    apply raises_for. intros p _.
    eapply raises_weaken; [|apply raises_makezip]. by right.
Qed.

(** Reading the metadata raises for the file, the decoder or the keys. *)
Lemma raises_read_manifest :
  raises (λ e, is_os_error e ∨ e = JSONDecodeError ∨ e = TypeError
               ∨ e = KeyError "version" ∨ e = KeyError "productName")
         (read_manifest cwd json_loads).
Proof.
  intros w e w'. rewrite read_manifest_run.
  destruct (Fs.read cwd (fs w) "package.json") as [e1|text] eqn:Hread.
  - intros [= <- _]. left. by eapply read_os_error.
  - repeat case_match; intros [= <- _]; auto.
Qed.

End ScriptRaises.

(** Of the script's three [raise] statements only two can end a run.
    Whatever the options, arguments, tree, shell and decoder: a run that
    ends with a plain [Exception] ends with the empty-selection exception
    or the prefix exception.  The "path does not exist" exception of
    [install] never ends a run: the script makes the staging directory
    just before it stages. *)
Theorem main_own_exceptions (cwd : path) (shell : string → fsmap → fsmap)
    (json_loads : string → option pydoc) (opts : Opts.t) (args : list string)
    (w : world) (msg : string) :
  (main cwd shell json_loads opts args w).1 = inl (Exception msg) →
  msg = "no packages selected" ∨ msg = "path does not have the prefix".
Proof.
  intros Hrun. rewrite main_run in Hrun.
  destruct (read_manifest cwd json_loads w) as [[e1|[v n]] w1] eqn:Hread.
  - injection Hrun as ->.
    destruct (raises_read_manifest cwd json_loads _ _ _ Hread) as [?|[?|[?|[?|?]]]]; done.
  - destruct (run_packages _ _ _ _ _ _ _) as [r w2] eqn:Hpacks.
    cbn [fst] in Hrun. subst r.
    destruct (decide (select_packages args = [])) as [Hnil|Hsel].
    + unfold run_packages in Hpacks. rewrite Hnil in Hpacks.
      injection Hpacks as <- _. by left.
    + destruct (raises_run_packages cwd shell opts args n v Hsel _ _ _ Hpacks)
        as [?|[?|Hprefix]]; [done..|].
      injection Hprefix as ->. by right.
Qed.

Lemma main_own_exceptions_witness :
  "no packages selected" = "no packages selected"
  ∨ "no packages selected" = "path does not have the prefix".
Proof.
  apply (main_own_exceptions Sample.cwd Sample.bundler Sample.decoder
           (Opts.Make false false false) ["solaris"] Sample.start).
  vm_compute. reflexivity.
Defined.

(** A run ends with the empty-selection exception only if filters were
    given of which none occurs in any platform and the metadata could be
    read; the world is then as it was but for the version line: nothing
    was written, nothing was spawned. *)
Theorem no_packages_selected_only_if (cwd : path) (shell : string → fsmap → fsmap)
    (json_loads : string → option pydoc) (opts : Opts.t) (args : list string)
    (w : world) :
  let run := main cwd shell json_loads opts args w in
  run.1 = inl (Exception "no packages selected") →
  args ≠ [] ∧ Forall (λ pack, ¬ matched args pack) all_packages
  ∧ ∃ v n, manifest_ok cwd json_loads (fs w) v n
           ∧ run.2 = World (fs w)
                       (out w ++ [Print (str_of n +:+ " version: " +:+ str_of v)]).
Proof.
  intros run. subst run. rewrite main_run.
  destruct (read_manifest cwd json_loads w) as [[e1|[v n]] w1] eqn:Hread.
  { intros [= ->].
    destruct (raises_read_manifest cwd json_loads _ _ _ Hread)
      as [?|[?|[?|[?|?]]]]; done. }
  apply read_manifest_ok in Hread as [-> Hok].
  set (w1 := World (fs w) _).
  destruct (run_packages _ _ _ _ _ _ w1) as [r w2] eqn:Hpacks.
  cbn [fst snd]. intros ->.
  destruct (decide (select_packages args = [])) as [Hnil|Hsel].
  - destruct (decide (args = [])) as [->|Hne]; [done|].
    split; [done|]. split.
    + apply Forall_forall. intros pack Hpack Hmatch.
      rewrite select_packages_filter in Hnil by done.
      assert (pack ∈ filter (matched args) all_packages) as Hin
        by by apply list_elem_of_filter.
      rewrite Hnil in Hin. by apply not_elem_of_nil in Hin.
    + exists v, n. split; [done|].
      unfold run_packages in Hpacks. rewrite Hnil in Hpacks. by injection Hpacks as <-.
  - destruct (raises_run_packages cwd shell opts args n v Hsel _ _ _ Hpacks)
      as [?|[?|?]]; done.
Qed.

Lemma no_packages_selected_only_if_witness :
  let run := main Sample.cwd Sample.bundler Sample.decoder (Opts.Make false false false)
                  ["solaris"] Sample.start in
  ["solaris"] ≠ [] ∧ Forall (λ pack, ¬ matched ["solaris"] pack) all_packages
  ∧ ∃ v n, manifest_ok Sample.cwd Sample.decoder (fs Sample.start) v n
           ∧ run.2 = World (fs Sample.start)
                       (out Sample.start
                        ++ [Print (str_of n +:+ " version: " +:+ str_of v)]).
Proof.
  apply (no_packages_selected_only_if Sample.cwd Sample.bundler Sample.decoder
           (Opts.Make false false false) ["solaris"] Sample.start).
  vm_compute. reflexivity.
Defined.

(** * More on the archiver *)

Lemma contains_slash_append (a b : string) :
  Str.contains "/" (a +:+ b) = Str.contains "/" a || Str.contains "/" b.
Proof.
  induction a as [|c a IH]; [by destruct b|].
  by rewrite append_cons, !contains_slash_cons, IH, orb_assoc.
Qed.

Lemma after_last_slash_plain (s : string) :
  Str.contains "/" s = false → Str.after_last_slash s = 0.
Proof. destruct s as [|c s]; [done|]. cbn [Str.after_last_slash]. by intros ->. Qed.

Lemma after_last_slash_append (a b : string) :
  Str.contains "/" b = false →
  Str.after_last_slash (a +:+ "/" +:+ b) = S (String.length a).
Proof.
  intros Hb. induction a as [|c a IH].
  - change ("" +:+ "/" +:+ b) with (String "/" b).
    cbn [Str.after_last_slash]. rewrite contains_slash_cons. cbn [Ascii.eqb].
    rewrite (after_last_slash_plain b Hb). done.
  - rewrite append_cons. cbn [Str.after_last_slash].
    rewrite contains_slash_cons, contains_slash_append.
    change (Str.contains "/" ("/" +:+ b)) with (Str.contains "/" (String "/" b)).
    rewrite (contains_slash_cons "/" b). cbn [Ascii.eqb].
    rewrite !orb_true_r. by rewrite IH.
Qed.

Lemma drop_append (a b : string) : Str.drop (String.length a) (a +:+ b) = b.
Proof. induction a as [|c a IH]; [by destruct b|]. by rewrite append_cons. Qed.

Lemma take_append (a b : string) : Str.take (String.length a) (a +:+ b) = a.
Proof.
  induction a as [|c a IH]; [by destruct b|].
  rewrite append_cons. cbn [String.length Str.take]. by rewrite IH.
Qed.

(** What follows the last slash has no slash. *)
Lemma split_tail_plain (p : string) : Str.contains "/" (OsPath.split p).2 = false.
Proof.
  unfold OsPath.split. cbn [snd].
  induction p as [|c p IH]; [done|].
  cbn [Str.after_last_slash].
  destruct (Str.contains "/" (String c p)) eqn:Hc; [exact IH|exact Hc].
Qed.

Lemma prefix_split (p s : string) :
  String.prefix p s = true → ∃ rest, s = p +:+ rest.
Proof.
  revert s. induction p as [|c p IH]; intros s; [by exists s|].
  destruct s as [|c' s]; [done|].
  change (String.prefix (String c p) (String c' s))
    with (if ascii_dec c c' then String.prefix p s else false).
  destruct (ascii_dec c c') as [<-|]; [|done].
  intros [rest ->]%IH. by exists rest.
Qed.

(** The bundle directories the script itself names: with no slash in the
    product name and in the platform, [os.path.split] gives back [dist]
    and the directory's own name. *)
Lemma split_dest (product_name pack : string) :
  Str.contains "/" product_name = false → Str.contains "/" pack = false →
  OsPath.split (dest (PStr product_name) pack)
  = ("dist", product_name +:+ "-" +:+ pack).
Proof.
  intros Hname Hpack.
  assert (Str.contains "/" (product_name +:+ "-" +:+ pack) = false) as Hplain.
  { rewrite !contains_slash_append, Hname, Hpack. done. }
  unfold dest, OsPath.split. cbn [str_of].
  change ("dist/" +:+ product_name +:+ "-" +:+ pack)
    with ("dist" +:+ "/" +:+ (product_name +:+ "-" +:+ pack)).
  rewrite (after_last_slash_append "dist" _ Hplain).
  change (S (String.length "dist")) with (String.length "dist/").
  change ("dist" +:+ "/" +:+ (product_name +:+ "-" +:+ pack))
    with ("dist/" +:+ (product_name +:+ "-" +:+ pack)).
  by rewrite take_append, drop_append.
Qed.

Lemma length_drop (k : nat) (s : string) : String.length (Str.drop k s) ≤ String.length s.
Proof.
  revert k. induction s as [|c s IH]; intros [|k]; simpl; try lia.
  specialize (IH k). lia.
Qed.

Lemma replace_scan_skip (old new : string) (k : nat) (s : string) :
  Str.replace_scan old new k s = Str.replace_scan old new 0 (Str.drop k s).
Proof.
  revert k. induction s as [|c s IH]; intros [|k]; try done.
  cbn [Str.replace_scan Str.drop]. apply IH.
Qed.

Lemma replace_scan_cons (old new : string) (c : ascii) (s : string) :
  Str.replace_scan old new 0 (String c s) =
  if String.prefix old (String c s)
  then new +:+ Str.replace_scan old new 0 (Str.drop (String.length old - 1) s)
  else String c (Str.replace_scan old new 0 s).
Proof. cbn [Str.replace_scan]. by rewrite <- replace_scan_skip. Qed.

Lemma prefix_cons_cons (a b : ascii) (p s : string) :
  String.prefix (String a p) (String b s) = if ascii_dec a b then String.prefix p s else false.
Proof. reflexivity. Qed.

Lemma prefix_empty (s : string) : String.prefix "" s = true.
Proof. by destruct s. Qed.

(** If the output of the substitution starts with [String c p], where
    [c] is not an "m", so does the input, provided that holds for [p]. *)
Lemma replaced_prefix_step (c : ascii) (p : string) :
  c ≠ "m"%char →
  (∀ s, String.prefix p (Str.replace_scan "darwin" "macos" 0 s) = true →
        String.prefix p s = true) →
  ∀ s, String.prefix (String c p) (Str.replace_scan "darwin" "macos" 0 s) = true →
       String.prefix (String c p) s = true.
Proof.
  intros Hc Hp [|c0 s]; [done|]. rewrite replace_scan_cons.
  destruct (String.prefix "darwin" (String c0 s)).
  - change ("macos" +:+ ?t) with (String "m" ("acos" +:+ t)).
    rewrite prefix_cons_cons. by destruct (ascii_dec c "m").
  - rewrite !prefix_cons_cons. destruct (ascii_dec c c0); [apply Hp|done].
Qed.

Lemma replaced_prefix_darwin (s : string) :
  String.prefix "darwin" (Str.replace_scan "darwin" "macos" 0 s) = true →
  String.prefix "darwin" s = true.
Proof.
  revert s. repeat (apply replaced_prefix_step; [done|]).
  intros s _. apply prefix_empty.
Qed.

(** After the substitution no "darwin" is left. *)
Lemma replace_darwin_gone (s : string) :
  Str.contains "darwin" (Str.replace "darwin" "macos" s) = false.
Proof.
  unfold Str.replace.
  assert (∀ n s, String.length s ≤ n →
            Str.contains "darwin" (Str.replace_scan "darwin" "macos" 0 s) = false) as Hall;
    [|by apply (Hall (String.length s))].
  clear s. induction n as [|n IH]; intros [|c s] Hlen; try done; [simpl in Hlen; lia|].
  rewrite replace_scan_cons.
  destruct (String.prefix "darwin" (String c s)) eqn:Hmatch.
  - assert (∀ t, Str.contains "darwin" ("macos" +:+ t) = Str.contains "darwin" t) as ->
      by (intros t; reflexivity).
    apply IH. pose proof (length_drop (String.length "darwin" - 1) s).
    simpl in Hlen. lia.
  - cbn [Str.contains]. rewrite IH by (simpl in Hlen; lia). rewrite orb_false_r.
    destruct (String.prefix "darwin" (String c (Str.replace_scan "darwin" "macos" 0 s)))
      eqn:Hout; [|done].
    pose proof (replaced_prefix_darwin (String c s)) as Hin.
    rewrite replace_scan_cons, Hmatch in Hin. by specialize (Hin Hout).
Qed.

Section ArchiverMore.

Context (shell : string → fsmap → fsmap).

(** The three ways the archiver ends when its checks pass. *)
Lemma makezip_run (name version dir : string) (unwrapped : bool) (w : world) :
  let prefix := name +:+ "-" in
  let val := (OsPath.split dir).2 in
  let zipfile := (prefix +:+ version) +:+ "-" +:+ Str.drop (String.length prefix) val in
  Str.startswith val prefix = true →
  makezip shell (PStr name) (PStr version) dir unwrapped w =
  if Str.contains "darwin" zipfile then
    (print ("AppDMGing up: " +:+ dir +:+ " to " +:+ Str.replace "darwin" "macos" zipfile);;
     subprocess_call shell
       ("rm -f dist/" +:+ Str.replace "darwin" "macos" zipfile +:+
        ".dmg; node_modules/.bin/appdmg resources/pack-dmg-spec.json dist/" +:+
        Str.replace "darwin" "macos" zipfile +:+ ".dmg")) w
  else if unwrapped then
    (print ("Zipping up: " +:+ dir +:+ " to " +:+ zipfile +:+ " (unwrapped)");;
     subprocess_call shell
       ("cd " +:+ dir +:+ "; rm -f ../" +:+ zipfile +:+ ".zip; zip -q -r ../" +:+
        zipfile +:+ ".zip *")) w
  else
    (print ("Zipping up: " +:+ dir +:+ " to " +:+ zipfile +:+ " (wrapped)");;
     subprocess_call shell
       ("cd " +:+ (OsPath.split dir).1 +:+ "; rm -f " +:+ zipfile +:+ ".zip; zip -q -r " +:+
        zipfile +:+ ".zip " +:+ (OsPath.split dir).2)) w.
Proof.
  intros prefix val zipfile Hprefix. unfold makezip.
  cbn [add_str str_add]. rewrite bind_run. cbn [mret M_ret].
  fold prefix val. rewrite Hprefix. cbn [negb]. rewrite bind_run. cbn [mret M_ret].
  fold zipfile. destruct (Str.contains "darwin" zipfile); [done|].
  by destruct unwrapped.
Qed.

(** The archiver's own two failures.  It raises the prefix exception
    exactly when the product name is a string and the directory's base
    name does not start with that name and a dash; it raises a type error
    exactly when the product name is not a string, or it is, the prefix is
    there and the version is not a string.  Either way nothing has been
    printed or spawned.  When the archiver returns, the name and the
    version are strings, the prefix is there, and one line was printed and
    then one archiving command spawned. *)
Theorem makezip_checks (product_name product_version : pyval) (dir : string)
    (unwrapped : bool) (w : world) :
  let run := makezip shell product_name product_version dir unwrapped w in
  let prefixed name := Str.startswith (OsPath.split dir).2 (name +:+ "-") in
  (run.1 = inl (Exception "path does not have the prefix")
   ↔ ∃ name, product_name = PStr name ∧ prefixed name = false)
  ∧ (run.1 = inl TypeError
     ↔ (∃ text, product_name = PNonStr text)
       ∨ (∃ name text, product_name = PStr name ∧ prefixed name = true
                       ∧ product_version = PNonStr text))
  ∧ (run.1 = inl TypeError ∨ run.1 = inl (Exception "path does not have the prefix") →
     run.2 = w)
  ∧ (run.1 = inr () →
     ∃ name version line cmd,
       product_name = PStr name ∧ product_version = PStr version
       ∧ prefixed name = true
       ∧ is_archiver_cmd cmd = true
       ∧ run.2 = World (shell cmd (fs w)) (out w ++ [Print line; Call cmd])).
Proof.
  intros run prefixed. subst run prefixed. cbn beta.
  destruct product_name as [name|text].
  2: { change (makezip shell (PNonStr text) product_version dir unwrapped w)
         with (@inl exn () TypeError, w). cbn [fst snd].
       split_and!; [|split; [eauto|done]|done..].
       split; [done|]. by intros (name & ? & _). }
  destruct (Str.startswith (OsPath.split dir).2 (name +:+ "-")) eqn:Hprefix.
  2: { assert (makezip shell (PStr name) product_version dir unwrapped w
               = (inl (Exception "path does not have the prefix"), w)) as ->.
       { unfold makezip, add_str, mbind, M_bind, mret, M_ret. by rewrite Hprefix. }
       cbn [fst snd]. split_and!; [split; [eauto|done]| |done..].
       split; [done|].
       intros [(text & ?)|(name' & text & [= <-] & Hp & _)]; [done|congruence]. }
  destruct product_version as [version|text].
  2: { assert (makezip shell (PStr name) (PNonStr text) dir unwrapped w
               = (inl TypeError, w)) as ->.
       { unfold makezip, add_str, str_add, mbind, M_bind, mret, M_ret, raise.
         by rewrite Hprefix. }
       cbn [fst snd]. split_and!; [|split; [eauto 10|done]|done..].
       split; [done|]. intros (name' & [= <-] & Hp). congruence. }
  assert (∃ line cmd,
            is_archiver_cmd cmd = true
            ∧ makezip shell (PStr name) (PStr version) dir unwrapped w
              = (inr (), World (shell cmd (fs w)) (out w ++ [Print line; Call cmd])))
    as (line & cmd & Hcmd & ->).
  { rewrite (makezip_run name version dir unwrapped w Hprefix).
    destruct (Str.contains "darwin" _); [|destruct unwrapped];
      rewrite print_call_run; eexists _, _; (split; [|reflexivity]);
      unfold is_archiver_cmd, Str.startswith; by rewrite prefix_append, ?orb_true_r. }
  cbn [fst snd]. split_and!.
  - split; [done|]. intros (name' & [= <-] & Hp). congruence.
  - split; [done|]. by intros [(text & ?)|(name' & text & _ & _ & ?)].
  - by intros [?|?].
  - intros _. by exists name, version, line, cmd.
Qed.

(** A product name with a slash in it cannot be archived: whatever the
    bundle directory, its base name has no slash, so the archiver raises
    the prefix exception. *)
Theorem makezip_slash_in_name (product_name : string) (product_version : pyval)
    (dir : string) (unwrapped : bool) (w : world) :
  Str.contains "/" product_name = true →
  makezip shell (PStr product_name) product_version dir unwrapped w
  = (inl (Exception "path does not have the prefix"), w).
Proof.
  intros Hslash.
  assert (Str.startswith (OsPath.split dir).2 (product_name +:+ "-") = false) as Hprefix.
  { destruct (Str.startswith _ _) eqn:Hp; [|done].
    apply prefix_split in Hp as [rest Hval].
    pose proof (split_tail_plain dir) as Hplain.
    rewrite Hval, !contains_slash_append, Hslash in Hplain. done. }
  unfold makezip, add_str, mbind, M_bind, mret, M_ret. by rewrite Hprefix.
Qed.

(** For the directories the script itself names, with no slash in the
    product name or the platform: the prefix check passes, and when the
    archiver returns, the platform read back from the directory name is
    the platform, the archive is named product-version-platform, with
    "macos" for "darwin" on the disk-image path, and the line printed and
    the command spawned are these.  The wrapped layout runs in [dist] on
    the bundle directory, the unwrapped one inside the bundle
    directory. *)
Theorem makezip_bundle_archive (product_name product_version pack : string)
    (unwrapped : bool) (w : world) :
  let zipfile := product_name +:+ "-" +:+ product_version +:+ "-" +:+ pack in
  let bundle := product_name +:+ "-" +:+ pack in
  let shown := Str.replace "darwin" "macos" zipfile in
  let line :=
    if Str.contains "darwin" zipfile
    then "AppDMGing up: dist/" +:+ bundle +:+ " to " +:+ shown
    else "Zipping up: dist/" +:+ bundle +:+ " to " +:+ zipfile +:+
         (if unwrapped then " (unwrapped)" else " (wrapped)") in
  let cmd :=
    if Str.contains "darwin" zipfile
    then "rm -f dist/" +:+ shown +:+
         ".dmg; node_modules/.bin/appdmg resources/pack-dmg-spec.json dist/" +:+
         shown +:+ ".dmg"
    else if unwrapped
    then "cd dist/" +:+ bundle +:+ "; rm -f ../" +:+ zipfile +:+
         ".zip; zip -q -r ../" +:+ zipfile +:+ ".zip *"
    else "cd dist; rm -f " +:+ zipfile +:+ ".zip; zip -q -r " +:+ zipfile +:+
         ".zip " +:+ bundle in
  let run := makezip shell (PStr product_name) (PStr product_version)
                     (dest (PStr product_name) pack) unwrapped w in
  Str.contains "/" product_name = false →
  Str.contains "/" pack = false →
  run.1 ≠ inl (Exception "path does not have the prefix")
  ∧ (run.1 = inr () →
     run.2 = World (shell cmd (fs w)) (out w ++ [Print line; Call cmd])).
Proof.
  intros zipfile bundle shown line cmd run Hname Hpack. subst run.
  pose proof (split_dest product_name pack Hname Hpack) as Hsplit.
  assert (product_name +:+ "-" +:+ pack = (product_name +:+ "-") +:+ pack) as Hbundle
    by by rewrite append_assoc.
  rewrite makezip_run.
  2: { rewrite Hsplit. cbn [snd]. unfold Str.startswith.
       rewrite Hbundle. apply prefix_append. }
  rewrite Hsplit. cbn [fst snd].
  assert (Str.drop (String.length (product_name +:+ "-")) (product_name +:+ "-" +:+ pack)
          = pack) as -> by (rewrite Hbundle; apply drop_append).
  assert (((product_name +:+ "-") +:+ product_version) +:+ "-" +:+ pack = zipfile) as ->
    by (subst zipfile; by rewrite !append_assoc).
  subst line cmd. fold shown.
  destruct (Str.contains "darwin" zipfile); [|destruct unwrapped];
    rewrite print_call_run; (split; [done|intros _; reflexivity]).
Qed.

End ArchiverMore.

Lemma makezip_slash_in_name_witness :
  makezip Sample.bundler (PStr "my/app") (PStr "1.0") (dest (PStr "my/app") "linux-x64")
          false Sample.start
  = (inl (Exception "path does not have the prefix"), Sample.start).
Proof. apply makezip_slash_in_name. reflexivity. Defined.

Lemma makezip_bundle_archive_witness :
  let run := makezip Sample.bundler (PStr "App") (PStr "1.0") (dest (PStr "App") "linux-x64")
                     false Sample.start in
  run.1 ≠ inl (Exception "path does not have the prefix")
  ∧ (run.1 = inr () →
     run.2
     = World (Sample.bundler "cd dist; rm -f App-1.0-linux-x64.zip; zip -q -r App-1.0-linux-x64.zip App-linux-x64"
                (fs Sample.start))
             (out Sample.start ++
              [Print "Zipping up: dist/App-linux-x64 to App-1.0-linux-x64 (wrapped)";
               Call "cd dist; rm -f App-1.0-linux-x64.zip; zip -q -r App-1.0-linux-x64.zip App-linux-x64"])).
Proof.
  apply (makezip_bundle_archive Sample.bundler "App" "1.0" "linux-x64" false Sample.start);
    reflexivity.
Defined.

Lemma added_world (w : world) (m : fsmap) (l : list event) :
  added w (World m (out w ++ l)) = l.
Proof. by apply added_app. Qed.

Section DiskImage.

Context (shell : string → fsmap → fsmap).

(** When the archiver spawned the disk-image tool: the image name has no
    "darwin" left in it, and the layout flag made no difference. *)
Theorem makezip_disk_image (product_name product_version : pyval) (dir : string)
    (unwrapped : bool) (w : world) (cmd : string) :
  calls (added w (makezip shell product_name product_version dir unwrapped w).2) = [cmd] →
  Str.startswith cmd "rm -f dist/" = true →
  (∃ shown,
     Str.contains "darwin" shown = false
     ∧ cmd = "rm -f dist/" +:+ shown +:+
             ".dmg; node_modules/.bin/appdmg resources/pack-dmg-spec.json dist/" +:+
             shown +:+ ".dmg")
  ∧ makezip shell product_name product_version dir (negb unwrapped) w
    = makezip shell product_name product_version dir unwrapped w.
Proof.
  intros Hcalls Hcmd.
  destruct (makezip shell product_name product_version dir unwrapped w)
    as [[e|[]] w'] eqn:Hrun.
  { apply makezip_fail in Hrun as ->. cbn [snd] in Hcalls.
    by rewrite (added_app w w []) in Hcalls by by rewrite app_nil_r. }
  assert (∃ name version,
            product_name = PStr name ∧ product_version = PStr version
            ∧ Str.startswith (OsPath.split dir).2 (name +:+ "-") = true)
    as (name & version & -> & -> & Hprefix).
  { unfold makezip in Hrun.
    destruct product_name as [name|]; [|done].
    cbn [add_str] in Hrun. rewrite bind_run in Hrun. cbn [mret M_ret] in Hrun.
    destruct (Str.startswith _ _) eqn:Hprefix; cbn [negb] in Hrun; [|done].
    destruct product_version as [version|]; [|done].
    by exists name, version. }
  rewrite (makezip_run shell name version dir (negb unwrapped) w Hprefix).
  rewrite (makezip_run shell name version dir unwrapped w Hprefix) in Hrun.
  cbn [snd] in Hcalls.
  destruct (Str.contains "darwin" _) eqn:Hdarwin.
  - rewrite print_call_run in Hrun |- *. injection Hrun as <-.
    rewrite added_world in Hcalls. injection Hcalls as <-.
    split; [|done]. eexists. split; [apply replace_darwin_gone|done].
  - destruct unwrapped; rewrite print_call_run in Hrun; injection Hrun as <-;
      rewrite added_world in Hcalls; injection Hcalls as <-; done.
Qed.

End DiskImage.

Lemma makezip_disk_image_witness :
  (∃ shown,
     Str.contains "darwin" shown = false
     ∧ "rm -f dist/App-1.0-macos-x64.dmg; node_modules/.bin/appdmg resources/pack-dmg-spec.json dist/App-1.0-macos-x64.dmg"
       = "rm -f dist/" +:+ shown +:+
         ".dmg; node_modules/.bin/appdmg resources/pack-dmg-spec.json dist/" +:+
         shown +:+ ".dmg")
  ∧ makezip Sample.bundler (PStr "App") (PStr "1.0") "dist/App-darwin-x64" (negb true)
            Sample.start
    = makezip Sample.bundler (PStr "App") (PStr "1.0") "dist/App-darwin-x64" true
              Sample.start.
Proof.
  apply (makezip_disk_image Sample.bundler (PStr "App") (PStr "1.0") "dist/App-darwin-x64"
           true Sample.start).
  - vm_compute. reflexivity.
  - vm_compute. reflexivity.
Defined.

(** * Product names and the prefix exception *)

Lemma selected_in_all (args : list string) (pack : string) :
  pack ∈ select_packages args → pack ∈ all_packages.
Proof.
  destruct (decide (args = [])) as [->|Hne]; [done|].
  rewrite select_packages_filter by done. by intros [_ ?]%list_elem_of_filter.
Qed.

Lemma all_packages_plain (pack : string) :
  pack ∈ all_packages → Str.contains "/" pack = false.
Proof.
  assert (Forall (λ p, Str.contains "/" p = false) all_packages) as Hall
    by (apply (bool_decide_unpack _); vm_compute; exact I).
  rewrite Forall_forall in Hall. apply Hall.
Qed.

Section PrefixException.

Context (cwd : path) (shell : string → fsmap → fsmap) (json_loads : string → option pydoc).

Lemma raises_makezip_bundle (name : string) (product_version : pyval) (pack : string)
    (unwrapped : bool) :
  Str.contains "/" name = false → Str.contains "/" pack = false →
  raises (λ e, e = TypeError)
         (makezip shell (PStr name) product_version (dest (PStr name) pack) unwrapped).
Proof.
  intros Hname Hpack w e w' Hrun.
  assert (Str.startswith (OsPath.split (dest (PStr name) pack)).2 (name +:+ "-") = true)
    as Hprefix.
  { rewrite split_dest by done. cbn [snd]. unfold Str.startswith.
    rewrite <- append_assoc. apply prefix_append. }
  destruct product_version as [version|].
  - rewrite (makezip_run shell name version _ unwrapped w Hprefix) in Hrun.
    destruct (Str.contains "darwin" _); [|destruct unwrapped];
      by rewrite print_call_run in Hrun.
  - unfold makezip in Hrun. cbn [add_str str_add] in Hrun.
    rewrite bind_run in Hrun. cbn [mret M_ret] in Hrun.
    rewrite Hprefix in Hrun. cbn [negb] in Hrun. by injection Hrun as <- _.
Qed.

Lemma raises_run_packages_with (E : exn → Prop) (opts : Opts.t) (args : list string)
    (product_name product_version : pyval) :
  (∀ e, is_os_error e → E e) →
  (∀ pack, pack ∈ select_packages args →
     raises E (makezip shell product_name product_version (dest product_name pack)
                       (Str.contains "win32" pack))) →
  select_packages args ≠ [] →
  raises E (run_packages cwd shell opts args product_name product_version).
Proof.
  intros Hos Hzip Hsel. unfold run_packages.
  destruct (select_packages args) as [|pack packages] eqn:Hpacks; [done|].
  apply raises_makedirs_install; [done|].
  apply raises_bind.
  { eapply raises_weaken; [|apply raises_makedirs]. done. }
  intros _. apply raises_bind; [|intros _].
  - case_match; [|apply raises_ret].
    apply raises_for. intros p _.
    eapply raises_weaken; [|apply raises_builddir]. done.
  - case_match; [|apply raises_ret].
    apply raises_for. intros p Hp. by apply Hzip.
Qed.

(** With a string product name that has no slash in it, a run never ends
    with the prefix exception: the directories the script names always
    carry the prefix it checks for. *)
Theorem main_prefix_check_passes (opts : Opts.t) (args : list string) (w : world)
    (v : pyval) (name : string) :
  manifest_ok cwd json_loads (fs w) v (PStr name) →
  Str.contains "/" name = false →
  (main cwd shell json_loads opts args w).1 ≠ inl (Exception "path does not have the prefix").
Proof.
  intros Hok Hname. rewrite main_run.
  assert (read_manifest cwd json_loads w = (inr (v, PStr name), w)) as ->
    by by apply read_manifest_ok.
  destruct (run_packages _ _ _ _ _ _ _) as [r w'] eqn:Hrun. cbn [fst]. intros ->.
  destruct (decide (select_packages args = [])) as [Hnil|Hsel].
  { unfold run_packages in Hrun. by rewrite Hnil in Hrun. }
  apply (raises_run_packages_with (λ e, is_os_error e ∨ e = TypeError)) in Hrun;
    [by destruct Hrun|by left| |done].
  intros pack Hpack. eapply raises_weaken; [|apply raises_makezip_bundle]; [by right|done|].
  by apply all_packages_plain, selected_in_all with args.
Qed.

End PrefixException.

Lemma main_prefix_check_passes_witness :
  (main Sample.cwd Sample.bundler Sample.decoder (Opts.Make false false false) []
        Sample.start).1
  ≠ inl (Exception "path does not have the prefix").
Proof.
  apply (main_prefix_check_passes Sample.cwd Sample.bundler Sample.decoder
           (Opts.Make false false false) [] Sample.start (PStr "1.0") "App").
  - eexists _, _. split_and!; vm_compute; reflexivity.
  - reflexivity.
Defined.

(** * More on the bundle builder *)

(** [s.isascii() and '\0' not in s]: text that a command line, a path
    and a terminal all take as it is. *)
Definition ascii_text (s : string) : Prop :=
  Forall (λ c, 0 < nat_of_ascii c < 128) (String.list_ascii_of_string s).

#[global] Instance ascii_text_dec s : Decision (ascii_text s).
Proof. unfold ascii_text. apply _. Defined.

Lemma plain_license : plain "./LICENSE" ∧ rel_of "./LICENSE" = ["LICENSE"].
Proof. split; [apply (bool_decide_unpack _); vm_compute; exact I|reflexivity]. Qed.

Lemma plain_fonts :
  plain "./LICENSES-FONTS.txt" ∧ rel_of "./LICENSES-FONTS.txt" = ["LICENSES-FONTS.txt"].
Proof. split; [apply (bool_decide_unpack _); vm_compute; exact I|reflexivity]. Qed.

Lemma plain_version : plain "version" ∧ rel_of "version" = ["version"].
Proof. split; [apply (bool_decide_unpack _); vm_compute; exact I|reflexivity]. Qed.

Lemma snoc_ne {A : Type} (l l' : list A) (x y : A) : x ≠ y → l ++ [x] ≠ l' ++ [y].
Proof. intros Hne Heq. by apply app_inj_tail in Heq as [_ ?]. Qed.

(** A copy that went through found its destination in a directory. *)
Lemma copyfile_parent (cwd : path) (m m' : fsmap) (src dst : string) (pd : path) :
  Fs.wf m →
  Fs.copyfile cwd m src dst = inr m' → Fs.resolve cwd dst = Some pd →
  Fs.get m (Fs.parent pd) = Some Dir.
Proof.
  intros Hwf Hcopy Hpd. unfold Fs.copyfile, Fs.read, Fs.write in Hcopy.
  destruct (Fs.samefile cwd m src dst); [done|].
  destruct (Fs.resolve cwd src) as [ps|]; [|done].
  destruct (Fs.get m ps) as [[data|]|]; [|done..].
  rewrite Hpd in Hcopy.
  destruct (Fs.get m pd) as [[old|]|] eqn:Hdst; [|done|].
  - destruct pd as [|c pd]; [done|]. cbn [Fs.get] in Hdst.
    by apply (map_Forall_lookup_1 _ _ _ _ Hwf) in Hdst as [Hparent _].
  - by destruct (Fs.get m (Fs.parent pd)) as [[?|]|].
Qed.

Section Bundle.

Context (cwd : path) (shell : string → fsmap → fsmap).

(** What a bundle-builder call that returns has done: the bundler ran;
    then the two root files, as the bundler left them in the working
    directory, were written into the output directory; then the
    [version] file there, a plain file, was removed.  Nothing else
    differs from the tree the bundler left, and nothing was printed. *)
Theorem builddir_result (dir pack : string) (D : path) (w : world) :
  let run := builddir cwd shell dir pack w in
  let bundled := shell ("npm run package-" +:+ pack) (fs w) in
  Fs.resolve cwd dir = Some D →
  run.1 = inr () →
  ∃ license fonts,
    Fs.get bundled (cwd ++ ["LICENSE"]) = Some (File license)
    ∧ Fs.get bundled (cwd ++ ["LICENSES-FONTS.txt"]) = Some (File fonts)
    ∧ fs run.2 = delete (D ++ ["version"])
                   (<[D ++ ["LICENSES-FONTS.txt"] := File fonts]>
                      (<[D ++ ["LICENSE"] := File license]> bundled))
    ∧ out run.2 = out w ++ [Call ("npm run package-" +:+ pack)].
Proof.
  intros run bundled HD Hok. subst run.
  destruct (builddir cwd shell dir pack w) as [r w'] eqn:Hrun.
  cbn [fst snd] in *. subst r.
  destruct plain_license as [Hpl Hrl]. destruct plain_fonts as [Hpf Hrf].
  destruct plain_version as [Hpv Hrv].
  pose proof (resolve_join_plain cwd dir _ D HD Hpl) as Hdl. rewrite Hrl in Hdl.
  pose proof (resolve_join_plain cwd dir _ D HD Hpf) as Hdf. rewrite Hrf in Hdf.
  pose proof (resolve_join_plain cwd dir _ D HD Hpv) as Hdv. rewrite Hrv in Hdv.
  pose proof (resolve_plain cwd _ Hpl) as Hsl. rewrite Hrl in Hsl.
  pose proof (resolve_plain cwd _ Hpf) as Hsf. rewrite Hrf in Hsf.
  unfold builddir in Hrun.
  apply bind_ok in Hrun as ([] & w1 & Hcall & Hrun).
  unfold subprocess_call in Hcall. injection Hcall as <-. fold bundled in Hrun.
  apply bind_ok in Hrun as ([] & w3 & Hcopies & Hunlink).
  cbn [rootfiles for_] in Hcopies.
  apply bind_ok in Hcopies as ([] & w2 & Hcopy1 & Hcopies).
  apply bind_ok in Hcopies as ([] & w2' & Hcopy2 & Hret). injection Hret as <-.
  unfold copyfile, on_fs in Hcopy1, Hcopy2. cbn [fs out] in Hcopy1.
  destruct (Fs.copyfile cwd bundled _ _) as [?|m2] eqn:Hc1; [done|].
  injection Hcopy1 as <-. cbn [fs out] in Hcopy2.
  destruct (Fs.copyfile cwd m2 _ _) as [?|m3] eqn:Hc2; [done|].
  injection Hcopy2 as <-.
  apply copyfile_ok in Hc1 as (ps1 & pd1 & license & Hps1 & Hpd1 & Hread1 & Hnd1 & ->).
  apply copyfile_ok in Hc2 as (ps2 & pd2 & fonts & Hps2 & Hpd2 & Hread2 & Hnd2 & ->).
  rewrite Hsl in Hps1. rewrite Hdl in Hpd1. rewrite Hsf in Hps2. rewrite Hdf in Hpd2.
  injection Hps1 as <-. injection Hpd1 as <-. injection Hps2 as <-. injection Hpd2 as <-.
  rewrite get_insert in Hread2 by apply snoc_nonempty.
  rewrite decide_False in Hread2 by by apply snoc_ne.
  unfold unlink, on_fs, Fs.unlink in Hunlink. rewrite Hdv in Hunlink. cbn [fs out] in Hunlink.
  destruct (Fs.get _ (D ++ ["version"])) as [[marker|]|]; [|done..].
  injection Hunlink as <-. exists license, fonts. by split_and!.
Qed.

(** When the bundler left no output directory behind (it failed: its
    exit status is not looked at), the first copy raises an
    operating-system error; the tree is as the bundler left it.  This is
    for a platform and a directory name in plain ASCII without a NUL
    byte: other text the library may refuse before it spawns or
    copies. *)
Theorem builddir_without_bundle (dir pack : string) (D : path) (w : world) :
  let bundled := shell ("npm run package-" +:+ pack) (fs w) in
  ascii_text pack →
  ascii_text dir →
  Fs.resolve cwd dir = Some D →
  Fs.wf bundled →
  Fs.get bundled D ≠ Some Dir →
  ∃ e, is_os_error e
       ∧ builddir cwd shell dir pack w
         = (inl e, World bundled (out w ++ [Call ("npm run package-" +:+ pack)])).
Proof.
  intros bundled _ _ HD Hwf Hnodir.
  destruct plain_license as [Hpl Hrl].
  pose proof (resolve_join_plain cwd dir _ D HD Hpl) as Hdl. rewrite Hrl in Hdl.
  assert (∃ e, Fs.copyfile cwd bundled "./LICENSE" (OsPath.join dir "./LICENSE") = inl e)
    as [e Hcopy].
  { destruct (Fs.copyfile cwd bundled _ _) as [e|m'] eqn:Hcopy; [by eauto|].
    pose proof (copyfile_parent _ _ _ _ _ (D ++ ["LICENSE"]) Hwf Hcopy Hdl) as Hparent.
    unfold Fs.parent in Hparent. by rewrite removelast_last in Hparent. }
  exists e. split; [by eapply copyfile_os_error|].
  unfold builddir. rewrite bind_run. unfold subprocess_call at 1. fold bundled.
  rewrite bind_run. cbn [rootfiles for_]. rewrite bind_run.
  unfold copyfile at 1, on_fs. cbn [fs out]. by rewrite Hcopy.
Qed.

End Bundle.

Lemma builddir_result_witness :
  let run := builddir Sample.cwd Sample.bundler "dist/App-linux-x64" "linux-x64" Sample.start in
  let bundled := Sample.bundler ("npm run package-" +:+ "linux-x64") (fs Sample.start) in
  ∃ license fonts,
    Fs.get bundled (Sample.cwd ++ ["LICENSE"]) = Some (File license)
    ∧ Fs.get bundled (Sample.cwd ++ ["LICENSES-FONTS.txt"]) = Some (File fonts)
    ∧ fs run.2 = delete (["work"; "dist"; "App-linux-x64"] ++ ["version"])
                   (<[["work"; "dist"; "App-linux-x64"] ++ ["LICENSES-FONTS.txt"] := File fonts]>
                      (<[["work"; "dist"; "App-linux-x64"] ++ ["LICENSE"] := File license]>
                         bundled))
    ∧ out run.2 = out Sample.start ++ [Call ("npm run package-" +:+ "linux-x64")].
Proof.
  apply (builddir_result Sample.cwd Sample.bundler "dist/App-linux-x64" "linux-x64"
           ["work"; "dist"; "App-linux-x64"] Sample.start).
  - vm_compute. reflexivity.
  - vm_compute. reflexivity.
Defined.

Lemma builddir_without_bundle_witness :
  ∃ e, is_os_error e
       ∧ builddir Sample.cwd (λ _ m, m) "dist/App-linux-x64" "linux-x64" Sample.start
         = (inl e, World (fs Sample.start)
                         (out Sample.start ++ [Call ("npm run package-" +:+ "linux-x64")])).
Proof.
  apply (builddir_without_bundle Sample.cwd (λ _ m, m) "dist/App-linux-x64" "linux-x64"
           ["work"; "dist"; "App-linux-x64"] Sample.start).
  - apply (bool_decide_unpack _). vm_compute. exact I.
  - apply (bool_decide_unpack _). vm_compute. exact I.
  - vm_compute. reflexivity.
  - apply (bool_decide_unpack _). vm_compute. exact I.
  - vm_compute. discriminate.
Defined.

(** * What staging leaves behind *)

(** The facts the staging lemmas need, from a well-formed tree whose
    destination root is a directory apart from the manifest entries. *)
Lemma staging_setup (cwd : path) (resourcedir : string) (R : path) (m : fsmap) :
  Fs.wf m → staging_apart cwd resourcedir →
  Fs.resolve cwd resourcedir = Some R → Fs.get m R = Some Dir →
  (∀ p : path, p `prefix_of` R → Fs.get m p = Some Dir)
  ∧ (∀ (k : path) (n : string),
       outside R k → is_Some (m !! k) → last k = Some n → Fs.valid_name n)
  ∧ Forall (λ f, apart R (cwd ++ rel_of f)) files.
Proof.
  intros Hwf Hapart HR Hdir. split_and!.
  - by apply wf_ancestors.
  - intros k n _ Hk Hn. by apply (wf_names m k n).
  - unfold staging_apart in Hapart. rewrite HR in Hapart.
    pose proof files_plain as Hplain. rewrite Forall_forall in Hplain, Hapart.
    apply Forall_forall. intros f Hf. specialize (Hapart f Hf).
    by rewrite (resolve_plain cwd f (Hplain f Hf)) in Hapart.
Qed.

(** Staging touches nothing outside its destination root and never takes
    a directory away, whether it returns or raises. *)
Theorem install_keeps_outside (cwd : path) (resourcedir : string) (R : path) (w : world) :
  let after := fs (install cwd resourcedir w).2 in
  Fs.wf (fs w) →
  staging_apart cwd resourcedir →
  Fs.resolve cwd resourcedir = Some R →
  (∀ p : path, ¬ R `prefix_of` p → after !! p = fs w !! p)
  ∧ (∀ p : path, Fs.get (fs w) p = Some Dir → Fs.get after p = Some Dir).
Proof.
  intros after Hwf Hapart HR. subst after. rewrite install_run.
  destruct (Fs.isdir cwd (fs w) resourcedir) eqn:Hdir; [|done].
  unfold Fs.isdir in Hdir. rewrite HR in Hdir. apply bool_decide_eq_true in Hdir.
  destruct (staging_setup cwd resourcedir R (fs w) Hwf Hapart HR Hdir)
    as (Hroot & Hnames & Hfiles).
  pose proof (replay_steps cwd resourcedir R (fs w) HR Hroot Hnames Hfiles) as Hreplay.
  destruct (install_steps cwd resourcedir w) as [r w'] eqn:Hrun.
  destruct (Hreplay w (fut_refl _ _ _) r w' Hrun) as [Hfut _].
  cbn [snd]. split; [apply (fut_outside _ _ _ _ Hfut)|apply (fut_dirs _ _ _ _ Hfut)].
Qed.

Lemma install_keeps_outside_witness :
  let after := fs (install Sample.cwd "tempapp" Sample.ready).2 in
  (∀ p : path, ¬ ["work"; "tempapp"] `prefix_of` p → after !! p = fs Sample.ready !! p)
  ∧ (∀ p : path, Fs.get (fs Sample.ready) p = Some Dir → Fs.get after p = Some Dir).
Proof.
  apply (install_keeps_outside Sample.cwd "tempapp" ["work"; "tempapp"] Sample.ready).
  - apply (bool_decide_unpack _). vm_compute. exact I.
  - apply (bool_decide_unpack _). vm_compute. exact I.
  - vm_compute. reflexivity.
Defined.

(** A staged file: the source is a plain file and its mirror image below
    the destination root holds the same bytes. *)
Definition synced (cwd R rel : path) (m : fsmap) : Prop :=
  ∃ data, Fs.get m (cwd ++ rel) = Some (File data)
          ∧ Fs.get m (R ++ rel) = Some (File data).

(** A staged manifest entry: a plain file is staged as such; a directory
    has a directory as its image, with every entry of its listing staged
    as a plain file. *)
Definition staged_entry (cwd R : path) (f : string) (m : fsmap) : Prop :=
  match Fs.get m (cwd ++ rel_of f) with
  | Some Dir =>
      Fs.get m (R ++ rel_of f) = Some Dir
      ∧ Forall (λ n, synced cwd R (rel_of f ++ [n]) m) (Fs.children m (cwd ++ rel_of f))
  | _ => synced cwd R (rel_of f) m
  end.

Section Achieve.

Context (cwd R : path) (m0 : fsmap).

Hypothesis root_dirs : ∀ p : path, p `prefix_of` R → Fs.get m0 p = Some Dir.

Local Abbreviation fut := (fut cwd R).
Local Abbreviation replayable := (replayable cwd R m0).

(** When [c] returns, [G] holds of the tree it leaves and of every tree
    that may follow in the run. *)
Definition achieves {A : Type} (G : fsmap → Prop) (c : M A) : Prop :=
  ∀ w, fut m0 (fs w) → ∀ x w', c w = (inr x, w') → ∀ m1, fut (fs w') m1 → G m1.

Lemma achieves_bind_first {A B : Type} (Q : A → Prop) (Q' : B → Prop) (G : fsmap → Prop)
    (m : M A) (k : A → M B) :
  achieves G m → replayable Q m → (∀ x, Q x → replayable Q' (k x)) →
  achieves G (m ≫= k).
Proof.
  intros HG Hm Hk w Hw y w' Hrun m1 Hm1.
  apply bind_ok in Hrun as (x & wm & Hmw & Hkw).
  destruct (Hm _ Hw _ _ Hmw) as (Hfut & HQ & _).
  destruct (Hk x HQ wm (fut_trans _ _ _ _ _ Hw Hfut) _ _ Hkw) as [Hfut' _].
  eapply HG; [exact Hw|exact Hmw|]. by eapply fut_trans.
Qed.

Lemma achieves_bind_rest {A B : Type} (Q : A → Prop) (G : fsmap → Prop)
    (m : M A) (k : A → M B) :
  replayable Q m → (∀ x, Q x → achieves G (k x)) → achieves G (m ≫= k).
Proof.
  intros Hm Hk w Hw y w' Hrun m1 Hm1.
  apply bind_ok in Hrun as (x & wm & Hmw & Hkw).
  destruct (Hm _ Hw _ _ Hmw) as (Hfut & HQ & _).
  eapply (Hk x HQ wm); [by eapply fut_trans|exact Hkw|exact Hm1].
Qed.

Lemma achieves_for {A : Type} (G : fsmap → Prop) (l : list A) (body : A → M unit) (x : A) :
  x ∈ l →
  Forall (λ y, replayable (λ _, True) (body y)) l →
  achieves G (body x) →
  achieves G (for_ l body).
Proof.
  intros Hx Hall HG. induction Hall as [|y l Hy Hl IH]; [by apply not_elem_of_nil in Hx|].
  cbn [for_]. apply elem_of_cons in Hx as [->|Hx].
  - eapply achieves_bind_first; [exact HG|exact Hy|].
    intros _ _. by apply replay_for.
  - eapply achieves_bind_rest; [exact Hy|]. intros _ _. by apply IH.
Qed.

Lemma achieves_makedirs (s : string) (q : list string) :
  Fs.resolve cwd s = Some (R ++ q) →
  achieves (λ m, Fs.get m (R ++ q) = Some Dir) (makedirs cwd s).
Proof.
  intros Hs w Hw [] w' Hrun m1 Hm1.
  unfold makedirs, on_fs, Fs.makedirs in Hrun. rewrite Hs in Hrun.
  destruct (Fs.mkdirs s (fs w) [] (R ++ q)) as [e|m'] eqn:Hmk; [done|].
  injection Hrun as <-. apply (fut_dirs _ _ _ _ Hm1). cbn [fs].
  destruct (decide (R ++ q = [])) as [->|Hne]; [done|].
  destruct (mkdirs_ok _ _ _ _ _ Hmk) as [Hdirs _].
  specialize (Hdirs (length (R ++ q))). rewrite firstn_all in Hdirs. apply Hdirs.
  destruct (R ++ q); [done|simpl; lia].
Qed.

Lemma achieves_copyfile (src dst : string) (rel : path) :
  Fs.resolve cwd src = Some (cwd ++ rel) →
  Fs.resolve cwd dst = Some (R ++ rel) →
  outside R (cwd ++ rel) →
  achieves (synced cwd R rel) (copyfile cwd src dst).
Proof.
  intros Hsrc Hdst Hout w Hw [] w' Hrun m1 Hm1.
  unfold copyfile, on_fs in Hrun.
  destruct (Fs.copyfile cwd (fs w) src dst) as [e|m'] eqn:Hcopy; [done|].
  injection Hrun as <-. cbn [fs] in Hm1.
  apply copyfile_ok in Hcopy as (ps & pd & data & Hps & Hpd & Hread & Hnodir & ->).
  rewrite Hsrc in Hps. rewrite Hdst in Hpd. injection Hps as <-. injection Hpd as <-.
  assert (R ++ rel ≠ []) as Hne by (intros Hnil; by rewrite Hnil in Hnodir).
  assert (R ++ rel ≠ cwd ++ rel) as Hdiff.
  { intros Heq. apply Hout. rewrite <- Heq. by apply prefix_app_r. }
  assert (Fs.get (<[R ++ rel := File data]> (fs w)) (cwd ++ rel) = Some (File data)) as Hs'
    by (rewrite get_insert by done; by rewrite decide_False).
  assert (Fs.get (<[R ++ rel := File data]> (fs w)) (R ++ rel) = Some (File data)) as Hd'
    by (rewrite get_insert by done; by rewrite decide_True).
  exists data. split.
  - by rewrite (fut_get _ _ _ _ _ Hm1).
  - by apply (fut_synced _ _ _ _ Hm1).
Qed.

End Achieve.

Section StagingResult.

Context (cwd : path) (resourcedir : string) (R : path) (m0 : fsmap).

Hypothesis root_resolves : Fs.resolve cwd resourcedir = Some R.

Hypothesis root_dirs : ∀ p : path, p `prefix_of` R → Fs.get m0 p = Some Dir.

Hypothesis names_ok : ∀ (k : path) (n : string),
  outside R k → is_Some (m0 !! k) → last k = Some n → Fs.valid_name n.

Local Abbreviation fut := (fut cwd R).
Local Abbreviation replayable := (replayable cwd R m0).
Local Abbreviation achieves := (achieves cwd R m0).

Lemma achieves_and {A : Type} (G1 G2 : fsmap → Prop) (c : M A) :
  achieves G1 c → achieves G2 c → achieves (λ m, G1 m ∧ G2 m) c.
Proof. intros H1 H2 w Hw x w' Hrun m1 Hm1. split; eauto. Qed.

Lemma achieves_Forall {A B : Type} (G : B → fsmap → Prop) (l : list B) (c : M A) :
  (∀ y, y ∈ l → achieves (G y) c) → achieves (λ m, Forall (λ y, G y m) l) c.
Proof.
  intros Hall w Hw x w' Hrun m1 Hm1. apply Forall_forall. intros y Hy.
  by eapply (Hall y Hy).
Qed.

(** Copying the entries of a listing, one by one. *)
Lemma replay_children (filename : string) (subfiles : list string) :
  plain filename → apart R (cwd ++ rel_of filename) →
  Forall Fs.valid_name subfiles →
  Forall (λ subfile,
            replayable (λ _, True)
              (copyfile cwd (OsPath.join filename subfile)
                        (OsPath.join (OsPath.join resourcedir filename) subfile)))
         subfiles
  ∧ ∀ n, n ∈ subfiles →
      achieves (synced cwd R (rel_of filename ++ [n]))
        (copyfile cwd (OsPath.join filename n)
                  (OsPath.join (OsPath.join resourcedir filename) n)).
Proof.
  intros Hplain Hapart Hnames.
  pose proof (resolve_plain cwd _ Hplain) as Hsrc.
  pose proof (resolve_join_plain cwd _ _ _ root_resolves Hplain) as Hdst.
  assert (∀ n, Fs.valid_name n →
            Fs.resolve cwd (OsPath.join filename n) = Some (cwd ++ rel_of filename ++ [n])
            ∧ Fs.resolve cwd (OsPath.join (OsPath.join resourcedir filename) n)
              = Some (R ++ rel_of filename ++ [n])
            ∧ outside R (cwd ++ rel_of filename ++ [n])) as Hchild.
  { intros n [Hn Hrel]%valid_name_plain. split_and!.
    - rewrite (resolve_join_plain cwd _ _ _ Hsrc Hn), Hrel. by rewrite <- app_assoc.
    - rewrite (resolve_join_plain cwd _ _ _ Hdst Hn), Hrel. by rewrite <- app_assoc.
    - rewrite app_assoc. by apply apart_child. }
  rewrite Forall_forall in Hnames. split.
  - apply Forall_forall. intros n Hn.
    destruct (Hchild n (Hnames n Hn)) as (? & ? & ?). by eapply replay_copyfile.
  - intros n Hn. destruct (Hchild n (Hnames n Hn)) as (? & ? & ?).
    by eapply achieves_copyfile.
Qed.

Lemma achieves_entry (filename : string) :
  plain filename → apart R (cwd ++ rel_of filename) →
  achieves (staged_entry cwd R filename) (install_entry cwd resourcedir filename).
Proof.
  intros Hplain Hapart w Hw [] w' Hrun m1 Hm1.
  assert (outside R (cwd ++ rel_of filename)) as Hout by apply Hapart.
  pose proof (resolve_plain cwd _ Hplain) as Hsrc.
  pose proof (resolve_join_plain cwd _ _ _ root_resolves Hplain) as Hdst.
  destruct (replay_entry cwd resourcedir R m0 root_resolves root_dirs names_ok
              filename Hplain Hapart w Hw _ _ Hrun) as [Hfut _].
  assert (fut (fs w) m1) as Hall by by eapply fut_trans.
  unfold install_entry in Hrun.
  apply bind_ok in Hrun as (d & w0 & Hd & Hrun).
  unfold isdir in Hd. injection Hd as <- <-.
  unfold Fs.isdir in Hrun. rewrite Hsrc in Hrun. unfold staged_entry.
  rewrite (fut_get _ _ _ _ _ Hall) by done.
  destruct (decide (Fs.get (fs w) (cwd ++ rel_of filename) = Some Dir)) as [Hdir|Hfile].
  - rewrite bool_decide_eq_true_2 in Hrun by done. cbn [negb] in Hrun. rewrite Hdir.
    apply bind_ok in Hrun as ([] & w2 & Hmk & Hrun).
    apply bind_ok in Hrun as (names & w3 & Hls & Hloop).
    destruct (replay_makedirs cwd R m0 root_dirs _ _ Hdst w Hw _ _ Hmk) as (Hfut2 & _).
    assert (fut m0 (fs w2)) as Hw2 by by eapply fut_trans.
    assert (outside R (cwd ++ rel_of filename) ∧ ∀ n, outside R ((cwd ++ rel_of filename) ++ [n]))
      as [_ Hkids] by (split; [done|intros n; by apply apart_child]).
    destruct (replay_listdir cwd R m0 names_ok _ _ Hsrc Hout Hkids w2 Hw2 _ _ Hls)
      as (Hfut3 & Hvalid & _).
    destruct (replay_children filename names Hplain Hapart Hvalid) as [Hcopies Hsynced].
    destruct (replay_for cwd R m0 _ _ Hcopies w3 (fut_trans _ _ _ _ _ Hw2 Hfut3) _ _ Hloop)
      as [Hfut4 _].
    assert (fut (fs w2) m1) as Hlate.
    { eapply fut_trans; [exact Hfut3|]. by eapply fut_trans. }
    split.
    + by eapply (achieves_makedirs cwd R m0 _ _ Hdst w Hw () w2 Hmk).
    + assert (names = Fs.children (fs w2) (cwd ++ rel_of filename) ∧ w3 = w2) as [Hnames ->].
      { unfold listdir, Fs.listdir in Hls. rewrite Hsrc in Hls.
        destruct (Fs.get (fs w2) (cwd ++ rel_of filename)) as [[?|]|]; [done| |done].
        by injection Hls as <- <-. }
      assert (Fs.children m1 (cwd ++ rel_of filename) = names) as ->.
      { rewrite Hnames. apply children_ext. intros k Hk Hparent.
        destruct (child_of_parent k _ Hk Hparent) as (n & -> & _).
        apply (fut_outside _ _ _ _ Hlate), Hkids. }
      apply Forall_forall. intros n Hn.
      eapply (achieves_for cwd R m0 _ names _ n Hn Hcopies (Hsynced n Hn) w2 Hw2 () w' Hloop).
      done.
  - rewrite bool_decide_eq_false_2 in Hrun by done. cbn [negb] in Hrun.
    pose proof (achieves_copyfile cwd R m0 _ _ _ Hsrc Hdst Hout w Hw () w' Hrun m1 Hm1)
      as Hsync.
    destruct Hsync as (data & Hs & Hd). rewrite <- (fut_get _ _ _ _ _ Hall) by done.
    rewrite Hs. by exists data.
Qed.

Hypothesis files_apart : Forall (λ f, apart R (cwd ++ rel_of f)) files.

(** What the staging steps leave when they return. *)
Lemma achieves_steps :
  achieves (λ m, (Fs.get m (R ++ ["quixe"; "lib"]) = Some Dir
                  ∧ Fs.get m (R ++ ["quixe"; "media"]) = Some Dir)
                 ∧ Forall (λ f, staged_entry cwd R f m) files)
           (install_steps cwd resourcedir).
Proof.
  assert (plain "quixe" ∧ plain "lib" ∧ plain "media") as (Hq & Hl & Hm).
  { split_and!; apply (bool_decide_unpack _); vm_compute; exact I. }
  assert (Fs.resolve cwd resourcedir = Some (R ++ [])) as H0 by by rewrite app_nil_r.
  pose proof (resolve_join_plain cwd _ _ _ root_resolves Hq) as H1.
  pose proof (resolve_join_plain cwd _ _ _ H1 Hl) as H2.
  pose proof (resolve_join_plain cwd _ _ _ H1 Hm) as H3.
  rewrite <- app_assoc in H2, H3.
  change (rel_of "quixe" ++ rel_of "lib") with ["quixe"; "lib"] in H2.
  change (rel_of "quixe" ++ rel_of "media") with ["quixe"; "media"] in H3.
  assert (Forall (λ f, replayable (λ _, True) (install_entry cwd resourcedir f)) files)
    as Hentries.
  { pose proof files_plain as Hplain. apply Forall_forall. intros f Hf.
    rewrite Forall_forall in Hplain, files_apart. by apply replay_entry; auto. }
  pose proof (replay_makedirs cwd R m0 root_dirs _ _ H0) as R0.
  pose proof (replay_makedirs cwd R m0 root_dirs _ _ H1) as R1.
  pose proof (replay_makedirs cwd R m0 root_dirs _ _ H2) as R2.
  pose proof (replay_makedirs cwd R m0 root_dirs _ _ H3) as R3.
  pose proof (replay_for cwd R m0 _ _ Hentries) as R4.
  unfold install_steps.
  eapply achieves_bind_rest; [apply replay_print|]. intros _ _.
  eapply achieves_bind_rest; [exact R0|]. intros _ _.
  eapply achieves_bind_rest; [exact R1|]. intros _ _.
  apply achieves_and; [apply achieves_and|].
  - eapply achieves_bind_first; [by apply achieves_makedirs|exact R2|].
    intros _ _. eapply replay_bind; [exact R3|]. intros _ _. exact R4.
  - eapply achieves_bind_rest; [exact R2|]. intros _ _.
    eapply achieves_bind_first; [by apply achieves_makedirs|exact R3|].
    intros _ _. exact R4.
  - eapply achieves_bind_rest; [exact R2|]. intros _ _.
    eapply achieves_bind_rest; [exact R3|]. intros _ _.
    apply achieves_Forall. intros f Hf.
    eapply achieves_for; [exact Hf|exact Hentries|].
    pose proof files_plain as Hplain.
    rewrite Forall_forall in Hplain, files_apart. by apply achieves_entry; auto.
Qed.

End StagingResult.

(** When staging returns: [quixe/lib] and [quixe/media] are directories
    below the destination root, every manifest entry that is a plain file
    has been copied byte for byte to the same relative place, and every
    manifest entry that is a directory has a directory as its image, into
    which each entry of its listing, a plain file, has been copied byte
    for byte (one level, no deeper). *)
Theorem install_result (cwd : path) (resourcedir : string) (R : path) (w : world) :
  let run := install cwd resourcedir w in
  Fs.wf (fs w) →
  staging_apart cwd resourcedir →
  Fs.resolve cwd resourcedir = Some R →
  run.1 = inr () →
  Fs.get (fs run.2) (R ++ ["quixe"; "lib"]) = Some Dir
  ∧ Fs.get (fs run.2) (R ++ ["quixe"; "media"]) = Some Dir
  ∧ Forall (λ f, staged_entry cwd R f (fs run.2)) files.
Proof.
  intros run Hwf Hapart HR Hok. subst run. rewrite install_run in Hok |- *.
  destruct (Fs.isdir cwd (fs w) resourcedir) eqn:Hdir; [|done].
  unfold Fs.isdir in Hdir. rewrite HR in Hdir. apply bool_decide_eq_true in Hdir.
  destruct (staging_setup cwd resourcedir R (fs w) Hwf Hapart HR Hdir)
    as (Hroot & Hnames & Hfiles).
  destruct (install_steps cwd resourcedir w) as [r w'] eqn:Hrun.
  cbn [fst snd] in *. subst r.
  destruct (achieves_steps cwd resourcedir R (fs w) HR Hroot Hnames Hfiles
              w (fut_refl _ _ _) () w' Hrun (fs w') (fut_refl _ _ _)) as [[? ?] ?].
  done.
Qed.

Lemma install_result_witness :
  let run := install Sample.cwd "tempapp" Sample.ready in
  Fs.get (fs run.2) (["work"; "tempapp"] ++ ["quixe"; "lib"]) = Some Dir
  ∧ Fs.get (fs run.2) (["work"; "tempapp"] ++ ["quixe"; "media"]) = Some Dir
  ∧ Forall (λ f, staged_entry Sample.cwd ["work"; "tempapp"] f (fs run.2)) files.
Proof.
  apply (install_result Sample.cwd "tempapp" ["work"; "tempapp"] Sample.ready).
  - apply (bool_decide_unpack _). vm_compute. exact I.
  - apply (bool_decide_unpack _). vm_compute. exact I.
  - vm_compute. reflexivity.
  - vm_compute. reflexivity.
Defined.

(** * The order of the phases *)

(** The commands a computation spawns satisfy [PC]. *)
Definition spawns {A : Type} (PC : list string → Prop) (c : M A) : Prop :=
  ∀ w, ∃ l, out (c w).2 = out w ++ l ∧ PC (calls l).

Lemma spawns_quiet {A : Type} (PC : list string → Prop) (c : M A) :
  PC [] → emits (λ e, ∀ cmd, e ≠ Call cmd) c → spawns PC c.
Proof.
  intros Hnil Hc w. destruct (Hc w) as (l & Hout & Hl).
  exists l. split; [done|]. by rewrite calls_no_call.
Qed.

Lemma spawns_after_quiet {A B : Type} (PC : list string → Prop) (m : M A) (k : A → M B) :
  PC [] →
  emits (λ e, ∀ cmd, e ≠ Call cmd) m →
  (∀ x, spawns PC (k x)) →
  spawns PC (m ≫= k).
Proof.
  intros Hnil Hm Hk w. rewrite bind_run.
  destruct (Hm w) as (l1 & Hout1 & Hl1).
  destruct (m w) as [[e|x] w1]; cbn [snd] in *.
  - exists l1. split; [done|]. by rewrite calls_no_call.
  - destruct (Hk x w1) as (l2 & Hout2 & Hl2).
    exists (l1 ++ l2). rewrite Hout2, Hout1, <- app_assoc. split; [done|].
    by rewrite calls_app, calls_no_call.
Qed.

Section PhaseOrder.

Context (cwd : path) (shell : string → fsmap → fsmap) (json_loads : string → option pydoc).

(** The bundling loop spawns the bundler for the platforms in order, up
    to the first one for which the bundle builder raises. *)
Lemma build_all_log (product_name : pyval) (packages : list string) (w : world) :
  ∃ bundled,
    bundled `prefix_of` packages
    ∧ out (build_all cwd shell product_name packages w).2
      = out w ++ ((λ pack, Call ("npm run package-" +:+ pack)) <$> bundled)
    ∧ ((build_all cwd shell product_name packages w).1 = inr () → bundled = packages).
Proof.
  revert w. induction packages as [|pack packages IH]; intros w.
  - exists []. split_and!; [done|by rewrite app_nil_r|done].
  - unfold build_all in *. cbn [for_]. rewrite bind_run.
    pose proof (builddir_out cwd shell (dest product_name pack) pack w) as Hout.
    destruct (builddir cwd shell (dest product_name pack) pack w) as [[e|[]] w1];
      cbn [snd] in Hout.
    + exists [pack]. split_and!; [by apply prefix_cons, prefix_nil|done|done].
    + destruct (IH w1) as (bundled & Hpre & Hlog & Hall).
      exists (pack :: bundled). split_and!.
      * by apply prefix_cons.
      * rewrite Hlog, Hout, <- app_assoc. done.
      * intros Hok. by rewrite Hall.
Qed.

(** What the commands of a run look like, for the platforms
    [packages] and the two switches. *)
Definition phased (build zip : bool) (packages : list string) (cmds : list string) : Prop :=
  ∃ bundled archived,
    cmds = ((λ pack, "npm run package-" +:+ pack) <$> bundled) ++ archived
    ∧ bundled `prefix_of` packages
    ∧ Forall (λ cmd, is_archiver_cmd cmd = true) archived
    ∧ length archived ≤ length packages
    ∧ (build = false → bundled = [])
    ∧ (zip = false → archived = [])
    ∧ (build = true → archived ≠ [] → bundled = packages).

Lemma phased_nil (build zip : bool) (packages : list string) : phased build zip packages [].
Proof.
  exists [], []. split_and!; try done; [apply prefix_nil|simpl; lia].
Qed.

Lemma calls_bundled (bundled : list string) :
  calls ((λ pack, Call ("npm run package-" +:+ pack)) <$> bundled)
  = (λ pack, "npm run package-" +:+ pack) <$> bundled.
Proof. induction bundled as [|p l IH]; [done|]. cbn. by f_equal. Qed.

(** The archiving loop spawns at most one archiving command for each
    platform. *)
Lemma archive_all_log (product_name product_version : pyval) (packages : list string)
    (w : world) :
  ∃ l, out (archive_all shell product_name product_version packages w).2 = out w ++ l
       ∧ Forall (λ cmd, is_archiver_cmd cmd = true) (calls l)
       ∧ length (calls l) ≤ length packages.
Proof.
  revert w. induction packages as [|pack packages IH]; intros w.
  - exists []. split_and!; [by rewrite app_nil_r|done|done].
  - unfold archive_all in *. cbn [for_]. rewrite bind_run.
    destruct (makezip shell _ _ _ _ w) as [[e|[]] w1] eqn:Hzip.
    + apply makezip_fail in Hzip as ->. exists []. cbn [snd].
      split_and!; [by rewrite app_nil_r|done|simpl; lia].
    + apply makezip_ok in Hzip as (line & cmd & Hout & Hcmd & _).
      destruct (IH w1) as (l & Hlog & Hall & Hlen).
      exists ([Print line; Call cmd] ++ l). split_and!.
      * by rewrite Hlog, Hout, <- app_assoc.
      * rewrite calls_app. by constructor.
      * rewrite calls_app, length_app. simpl. lia.
Qed.

Lemma spawns_phases (opts : Opts.t) (product_name product_version : pyval)
    (packages : list string) :
  let doall := negb (Opts.makedist opts || Opts.makezip opts || Opts.makenothing opts) in
  spawns (phased (doall || Opts.makedist opts) (doall || Opts.makezip opts) packages)
    ((if doall || Opts.makedist opts
      then build_all cwd shell product_name packages else mret ());;
     (if doall || Opts.makezip opts
      then archive_all shell product_name product_version packages else mret ())).
Proof.
  intros doall w. rewrite bind_run.
  destruct (doall || Opts.makedist opts) eqn:Hbuild.
  - destruct (build_all_log product_name packages w) as (bundled & Hpre & Hlog & Hall).
    destruct (build_all cwd shell product_name packages w) as [[e|[]] w1]; cbn [fst snd] in *.
    + eexists. split; [exact Hlog|]. rewrite calls_bundled.
      exists bundled, []. rewrite app_nil_r. split_and!; try done. simpl. lia.
    + rewrite (Hall eq_refl) in Hlog.
      destruct (doall || Opts.makezip opts) eqn:Hzip.
      * destruct (archive_all_log product_name product_version packages w1)
          as (l & Hlog' & Harch & Hlen).
        eexists. split; [by rewrite Hlog', Hlog, <- app_assoc|].
        rewrite calls_app, calls_bundled.
        exists packages, (calls l). by split_and!.
      * eexists. split; [exact Hlog|]. rewrite calls_bundled.
        exists packages, []. rewrite app_nil_r. split_and!; try done. simpl. lia.
  - destruct (doall || Opts.makezip opts) eqn:Hzip.
    + destruct (archive_all_log product_name product_version packages w)
        as (l & Hlog' & Harch & Hlen).
      eexists. split; [exact Hlog'|]. exists [], (calls l).
      split_and!; try done. apply prefix_nil.
    + exists []. split; [by rewrite app_nil_r|]. apply phased_nil.
Qed.

Lemma main_spawns (opts : Opts.t) (args : list string) :
  let doall := negb (Opts.makedist opts || Opts.makezip opts || Opts.makenothing opts) in
  spawns (phased (doall || Opts.makedist opts) (doall || Opts.makezip opts)
                 (select_packages args))
         (main cwd shell json_loads opts args).
Proof.
  intros doall. unfold main.
  apply spawns_after_quiet; [apply phased_nil|apply emits_read_manifest|].
  intros [v n].
  apply spawns_after_quiet; [apply phased_nil|by apply emits_print|].
  intros _. unfold run_packages.
  destruct (select_packages args) as [|pack packages] eqn:Hsel.
  { apply spawns_quiet; [apply phased_nil|apply emits_raise]. }
  rewrite <- Hsel.
  apply spawns_after_quiet; [apply phased_nil|apply emits_on_fs|]. intros _.
  apply spawns_after_quiet; [apply phased_nil|by apply emits_install|]. intros _.
  apply spawns_after_quiet; [apply phased_nil|apply emits_on_fs|]. intros _.
  apply spawns_phases.
Qed.

(** In every run the bundler commands come first, for the selected
    platforms in order and only if the build phase is on; the archiving
    commands come after them, at most one for each selected platform and
    only if the archive phase is on; and when both phases are on,
    archiving starts only after every selected platform was bundled. *)
Theorem main_phase_order (opts : Opts.t) (args : list string) (w : world) :
  let doall := negb (Opts.makedist opts || Opts.makezip opts || Opts.makenothing opts) in
  phased (doall || Opts.makedist opts) (doall || Opts.makezip opts)
         (select_packages args)
         (calls (added w (main cwd shell json_loads opts args w).2)).
Proof.
  intros doall.
  destruct (main_spawns opts args w) as (l & Hout & Hl).
  by rewrite (added_app _ _ _ Hout).
Qed.

End PhaseOrder.

(** * A run with both phases off *)

Lemma mkdirs_skip (s : string) (m : fsmap) (pre : path) (a b : list string) :
  (∀ k, 0 < k ≤ length a → Fs.get m (pre ++ take k a) = Some Dir) →
  Fs.mkdirs s m pre (a ++ b) = Fs.mkdirs s m (pre ++ a) b.
Proof.
  revert pre. induction a as [|c a IH]; intros pre Hdirs.
  - by rewrite app_nil_r.
  - cbn [app Fs.mkdirs].
    assert (Fs.get m (pre ++ [c]) = Some Dir) as ->.
    { apply (Hdirs 1). simpl. lia. }
    rewrite IH.
    + by rewrite <- app_assoc.
    + intros k Hk. rewrite <- app_assoc. apply (Hdirs (S k)). simpl. lia.
Qed.

(** Making a directory directly below the working directory, whose
    ancestors are all in place: it is there already, or it is the one
    entry added. *)
Lemma makedirs_child (cwd : path) (m m' : fsmap) (s n : string) :
  (∀ p : path, p `prefix_of` cwd → Fs.get m p = Some Dir) →
  Fs.resolve cwd s = Some (cwd ++ [n]) →
  Fs.makedirs cwd m s = inr m' →
  (Fs.get m (cwd ++ [n]) = Some Dir ∧ m' = m)
  ∨ (m !! (cwd ++ [n]) = None ∧ m' = <[cwd ++ [n] := Dir]> m).
Proof.
  intros Hcwd Hs. unfold Fs.makedirs. rewrite Hs.
  rewrite mkdirs_skip.
  - cbn [app Fs.mkdirs].
    destruct (Fs.get m (cwd ++ [n])) as [[data|]|] eqn:Hn; [done| |].
    + intros [= <-]. by left.
    + intros [= <-]. right. split; [|done].
      by rewrite get_nonroot in Hn by apply snoc_nonempty.
  - intros k _. apply Hcwd. exists (drop k cwd). symmetry. apply take_drop.
Qed.

Lemma wf_insert_dir (m : fsmap) (k : path) (n : string) :
  Fs.wf m → m !! (k ++ [n]) = None → Fs.get m k = Some Dir → Fs.valid_name n →
  Fs.wf (<[k ++ [n] := Dir]> m).
Proof.
  intros Hwf Hnew Hparent Hname.
  assert (k ++ [n] ≠ []) as Hne by apply snoc_nonempty.
  assert (∀ p : path, Fs.get m p = Some Dir → Fs.get (<[k ++ [n] := Dir]> m) p = Some Dir)
    as Hkeep.
  { intros p Hp. rewrite get_insert by done. by case_decide. }
  apply map_Forall_insert; [done|]. split.
  - split.
    + unfold Fs.parent. rewrite removelast_last. by apply Hkeep.
    + by rewrite last_snoc.
  - intros p x Hp. destruct (Hwf p x Hp) as [Hdir Hlast]. split; [|done].
    by apply Hkeep.
Qed.

Lemma read_manifest_world (cwd : path) (json_loads : string → option pydoc) (w : world) :
  (read_manifest cwd json_loads w).2 = w.
Proof. rewrite read_manifest_run. by repeat case_match. Qed.

(** Staging from a well-formed tree leaves a tree that differs from it
    only below the destination root, with every directory kept. *)
Lemma install_fut (cwd : path) (resourcedir : string) (R : path) (w : world) :
  Fs.wf (fs w) → staging_apart cwd resourcedir →
  Fs.resolve cwd resourcedir = Some R →
  fut cwd R (fs w) (fs (install cwd resourcedir w).2).
Proof.
  intros Hwf Hapart HR. rewrite install_run.
  destruct (Fs.isdir cwd (fs w) resourcedir) eqn:Hdir; [|apply fut_refl].
  unfold Fs.isdir in Hdir. rewrite HR in Hdir. apply bool_decide_eq_true in Hdir.
  destruct (staging_setup cwd resourcedir R (fs w) Hwf Hapart HR Hdir)
    as (Hroot & Hnames & Hfiles).
  pose proof (replay_steps cwd resourcedir R (fs w) HR Hroot Hnames Hfiles) as Hreplay.
  destruct (install_steps cwd resourcedir w) as [r w'] eqn:Hrun.
  by destruct (Hreplay w (fut_refl _ _ _) r w' Hrun) as [Hfut _].
Qed.

Lemma makedirs_run (cwd : path) (s : string) (w : world) :
  makedirs cwd s w =
  match Fs.makedirs cwd (fs w) s with
  | inl e => (inl e, w)
  | inr m => (inr (), World m (out w))
  end.
Proof. reflexivity. Qed.

Section DryRun.

Context (cwd : path) (shell : string → fsmap → fsmap) (json_loads : string → option pydoc).

(** The part of the run between the selection and the phases. *)
Lemma prelude_effects (w : world) :
  let run := (makedirs cwd "tempapp";; install cwd "tempapp";; makedirs cwd "dist") w in
  Fs.wf (fs w) → Fs.get (fs w) cwd = Some Dir →
  (∀ p : path, ¬ (cwd ++ ["tempapp"]) `prefix_of` p → p ≠ cwd ++ ["dist"] →
               fs run.2 !! p = fs w !! p)
  ∧ (run.1 = inr () →
     Fs.get (fs run.2) (cwd ++ ["tempapp"]) = Some Dir
     ∧ Fs.get (fs run.2) (cwd ++ ["dist"]) = Some Dir).
Proof.
  intros run Hwf Hcwd. subst run.
  pose proof (wf_ancestors _ _ Hwf Hcwd) as Hup.
  assert (Fs.resolve cwd "tempapp" = Some (cwd ++ ["tempapp"])) as HT
    by (by rewrite (resolve_plain cwd "tempapp")
          by (apply (bool_decide_unpack _); vm_compute; exact I)).
  assert (Fs.resolve cwd "dist" = Some (cwd ++ ["dist"])) as HD
    by (by rewrite (resolve_plain cwd "dist")
          by (apply (bool_decide_unpack _); vm_compute; exact I)).
  assert (Fs.valid_name "tempapp") as Hname
    by (apply (bool_decide_unpack _); vm_compute; exact I).
  rewrite bind_run, makedirs_run.
  destruct (Fs.makedirs cwd (fs w) "tempapp") as [e|m1] eqn:Hm1; [by split|].
  assert ((∀ p : path, ¬ (cwd ++ ["tempapp"]) `prefix_of` p → m1 !! p = fs w !! p)
          ∧ Fs.wf m1 ∧ Fs.get m1 (cwd ++ ["tempapp"]) = Some Dir
          ∧ (∀ p : path, p `prefix_of` cwd → Fs.get m1 p = Some Dir))
    as (Hsame1 & Hwf1 & HT1 & Hup1).
  { destruct (makedirs_child _ _ _ _ _ Hup HT Hm1) as [[Hthere ->]|[Hnew ->]].
    - by split_and!.
    - split_and!.
      + intros p Hp. apply lookup_insert_ne. by intros <-.
      + by apply wf_insert_dir.
      + rewrite get_insert by apply snoc_nonempty. by rewrite decide_True.
      + intros p Hp. rewrite get_insert by apply snoc_nonempty.
        case_decide; [done|]. by apply Hup. }
  rewrite bind_run.
  pose proof (install_fut cwd "tempapp" _ (World m1 (out w)) Hwf1
                (tempapp_apart cwd) HT) as Hfut.
  destruct (install cwd "tempapp" (World m1 (out w))) as [[e|[]] w2]; cbn [fst snd fs] in *.
  { split; [|done]. intros p Hp _. rewrite <- (Hsame1 p Hp).
    by apply (fut_outside _ _ _ _ Hfut). }
  assert (∀ p : path, p `prefix_of` cwd → Fs.get (fs w2) p = Some Dir) as Hup2.
  { intros p Hp. apply (fut_dirs _ _ _ _ Hfut), Hup1, Hp. }
  pose proof (fut_dirs _ _ _ _ Hfut _ HT1) as HT2.
  rewrite makedirs_run.
  destruct (Fs.makedirs cwd (fs w2) "dist") as [e|m3] eqn:Hm3; cbn [fst snd fs].
  { split; [|done]. intros p Hp _. rewrite <- (Hsame1 p Hp).
    by apply (fut_outside _ _ _ _ Hfut). }
  destruct (makedirs_child _ _ _ _ _ Hup2 HD Hm3) as [[Hthere ->]|[Hnew ->]].
  - split; [|done]. intros p Hp _. rewrite <- (Hsame1 p Hp).
    by apply (fut_outside _ _ _ _ Hfut).
  - split.
    + intros p Hp Hdist. rewrite lookup_insert_ne by done.
      rewrite <- (Hsame1 p Hp). by apply (fut_outside _ _ _ _ Hfut).
    + intros _. rewrite !get_insert by apply snoc_nonempty.
      split; by case_decide.
Qed.

(** With [-n] and neither [-b] nor [-z], from a well-formed tree in which
    the working directory exists: the run spawns no command, and it
    leaves every entry as it was except for those at or below [tempapp]
    and for [dist] itself; but it is no dry run, for when it returns
    [tempapp] and [dist] are directories, made if they were missing. *)
Theorem main_without_phases (opts : Opts.t) (args : list string) (w : world) :
  let run := main cwd shell json_loads opts args w in
  Opts.makedist opts = false → Opts.makezip opts = false → Opts.makenothing opts = true →
  Fs.wf (fs w) → Fs.get (fs w) cwd = Some Dir →
  calls (added w run.2) = []
  ∧ (∀ p : path, ¬ (cwd ++ ["tempapp"]) `prefix_of` p → p ≠ cwd ++ ["dist"] →
                 fs run.2 !! p = fs w !! p)
  ∧ (run.1 = inr () →
     Fs.get (fs run.2) (cwd ++ ["tempapp"]) = Some Dir
     ∧ Fs.get (fs run.2) (cwd ++ ["dist"]) = Some Dir).
Proof.
  intros run Hb Hz Hn Hwf Hcwd. subst run. split.
  { destruct (main_spawns cwd shell json_loads opts args w) as (l & Hout & Hl).
    rewrite (added_app _ _ _ Hout).
    rewrite Hb, Hz, Hn in Hl. cbn in Hl.
    destruct Hl as (bundled & archived & -> & _ & _ & _ & Hnb & Hnz & _).
    by rewrite (Hnb eq_refl), (Hnz eq_refl). }
  rewrite main_run.
  pose proof (read_manifest_world cwd json_loads w) as Hread.
  destruct (read_manifest cwd json_loads w) as [[e|[v n]] w']; cbn [snd] in Hread;
    subst w'; [done|].
  unfold run_packages. rewrite Hb, Hz, Hn. cbn [orb negb].
  destruct (select_packages args) as [|pack packages]; [done|].
  set (w0 := World (fs w) _).
  pose proof (prelude_effects w0 Hwf Hcwd) as Hpre. cbn zeta in Hpre.
  change (fs w0) with (fs w) in Hpre.
  assert (∀ c : M unit, (c;; mret ();; mret ()) w0 = c w0) as Hend.
  { intros c. rewrite bind_run. destruct (c w0) as [[e|[]] w1]; [done|].
    by rewrite bind_run. }
  revert Hpre.
  replace ((makedirs cwd "tempapp";; install cwd "tempapp";; makedirs cwd "dist";;
            mret ();; mret ()) w0)
    with ((makedirs cwd "tempapp";; install cwd "tempapp";; makedirs cwd "dist") w0);
    [done|].
  rewrite !bind_run.
  destruct (makedirs cwd "tempapp" w0) as [[e|[]] w1]; [done|].
  rewrite !bind_run.
  destruct (install cwd "tempapp" w1) as [[e|[]] w2]; [done|].
  rewrite !bind_run.
  destruct (makedirs cwd "dist" w2) as [[e|[]] w3]; [done|].
  by rewrite bind_run.
Qed.

End DryRun.

Lemma main_without_phases_witness :
  let run := main Sample.cwd Sample.bundler Sample.decoder (Opts.Make false false true) []
                  Sample.start in
  calls (added Sample.start run.2) = []
  ∧ (∀ p : path, ¬ (Sample.cwd ++ ["tempapp"]) `prefix_of` p → p ≠ Sample.cwd ++ ["dist"] →
                 fs run.2 !! p = fs Sample.start !! p)
  ∧ (run.1 = inr () →
     Fs.get (fs run.2) (Sample.cwd ++ ["tempapp"]) = Some Dir
     ∧ Fs.get (fs run.2) (Sample.cwd ++ ["dist"]) = Some Dir).
Proof.
  apply (main_without_phases Sample.cwd Sample.bundler Sample.decoder
           (Opts.Make false false true) [] Sample.start).
  - reflexivity.
  - reflexivity.
  - reflexivity.
  - apply (bool_decide_unpack _). vm_compute. exact I.
  - vm_compute. reflexivity.
Defined.
